(** * visread/process.py: a shallow embedding and its verified properties

    The module is a handful of numpy one-liners plus one orchestrating
    function.  The embedding has four layers:

    - [Py]: the Python behaviour the code relies on (exceptions, tuple
      indexing with negative indexes, [assert], string formatting of
      shape tuples);
    - [F64] and [Cx]: the element types of the arrays.  A binary64 value is
      an exact rational extended with the two infinities and nan: rounding
      and signed zeros are outside the model; division by zero, the range
      of Python's [**] (its [OverflowError], its underflow to 0.0) and
      numpy's complex product and quotient are inside it;
    - [Np]: n-dimensional arrays (a shape and an element per index) with
      numpy's broadcasting, reductions along an axis and the index
      expressions the source uses;
    - the functions of process.py themselves, under their own names
      ([weight_to_sigma], a square root, is the one function left out). *)

From Stdlib Require Import List ZArith QArith Qcanon String Ascii Bool Lia Arith.
From Stdlib Require Import DecimalString Sorted.
Import ListNotations.

Set Implicit Arguments.
Open Scope nat_scope.

(* ------------------------------------------------------------------ *)
(** ** Python: exceptions and the few built-in behaviours used *)

Module Py.

Inductive exn : Type :=
| NameError (name : string)
| TypeError
| IndexError
| AxisError
| ValueError
| ZeroDivisionError
| OverflowError
| AssertionError (msg : string)
| RuntimeError (msg : string).

Inductive result (A : Type) : Type :=
| Ret (a : A)
| Raise (e : exn).

Arguments Ret {A} a.
Arguments Raise {A} e.

Definition bind {A B : Type} (m : result A) (k : A -> result B) : result B :=
  match m with
  | Ret a => k a
  | Raise e => Raise e
  end.

Definition raises {A : Type} (m : result A) : bool :=
  match m with Ret _ => false | Raise _ => true end.

(** [assert cond, msg] *)
Definition assert (cond : bool) (msg : string) : result unit :=
  if cond then Ret tt else Raise (AssertionError msg).

(** [t[i]] on a tuple or list: negative indexes count from the end. *)
Definition getitem {A : Type} (t : list A) (i : Z) : result A :=
  let n := Z.of_nat (List.length t) in
  let j := if (i <? 0)%Z then (i + n)%Z else i in
  if ((0 <=? j) && (j <? n))%bool%Z
  then match nth_error t (Z.to_nat j) with
       | Some x => Ret x
       | None => Raise IndexError
       end
  else Raise IndexError.

(** A global name of the module: bound, or a [NameError] when used. *)
Definition global {A : Type} (name : string) (binding : option A) : result A :=
  match binding with
  | Some f => Ret f
  | None => Raise (NameError name)
  end.

(** [str] of a non-negative int and of a tuple of ints:
    [()], [(3,)], [(2, 3)]. *)
Definition str_int (n : nat) : string := NilZero.string_of_uint (Nat.to_uint n).

Fixpoint join (sep : string) (l : list string) : string :=
  match l with
  | [] => EmptyString
  | [s] => s
  | s :: rest => (s ++ sep ++ join sep rest)%string
  end.

Definition str_tuple (t : list nat) : string :=
  match t with
  | [] => "()"%string
  | [n] => ("(" ++ str_int n ++ ",)")%string
  | _ => ("(" ++ join ", " (map str_int t) ++ ")")%string
  end.

End Py.

Import Py.

Declare Scope py_scope.
Delimit Scope py_scope with py.
Notation "x <- m ;; k" := (bind m (fun x => k))
  (at level 61, m at next level, right associativity) : py_scope.
Notation "' p <- m ;; k" := (bind m (fun x => let p := x in k))
  (at level 61, p pattern, m at next level, right associativity) : py_scope.
Open Scope py_scope.

(* ------------------------------------------------------------------ *)
(** ** Element types *)

Module F64.

Local Open Scope Qc_scope.

(** A float: a finite value, an infinity or nan. *)
Inductive float64 : Type :=
| Fin (q : Qc)
| PInf
| NInf
| NaN.

Definition of_Z (z : Z) : float64 := Fin (Q2Qc (inject_Z z)).
Definition of_Q (q : Q) : float64 := Fin (Q2Qc q).

Definition zero : float64 := of_Z 0.
Definition one : float64 := of_Z 1.

Definition inf (negative : bool) : float64 := if negative then NInf else PInf.

Definition fneg (x : float64) : float64 :=
  match x with
  | Fin q => Fin (- q)
  | PInf => NInf
  | NInf => PInf
  | NaN => NaN
  end.

Definition fadd (x y : float64) : float64 :=
  match x, y with
  | NaN, _ | _, NaN => NaN
  | Fin a, Fin b => Fin (a + b)
  | PInf, NInf | NInf, PInf => NaN
  | PInf, _ | _, PInf => PInf
  | NInf, _ | _, NInf => NInf
  end.

Definition fsub (x y : float64) : float64 := fadd x (fneg y).

(** The sign of a finite value: [Lt] negative, [Eq] zero, [Gt] positive. *)
Definition sgn (q : Qc) : comparison := (q ?= 0)%Qc.

Definition inf_times (negative : bool) (q : Qc) : float64 :=
  match sgn q with
  | Eq => NaN
  | Gt => inf negative
  | Lt => inf (negb negative)
  end.

Definition fmul (x y : float64) : float64 :=
  match x, y with
  | NaN, _ | _, NaN => NaN
  | Fin a, Fin b => Fin (a * b)
  | PInf, Fin b | Fin b, PInf => inf_times false b
  | NInf, Fin b | Fin b, NInf => inf_times true b
  | PInf, PInf | NInf, NInf => PInf
  | PInf, NInf | NInf, PInf => NInf
  end.

(** IEEE division: a finite non-zero value over zero is an infinity,
    zero over zero is nan; nothing is raised. *)
Definition fdiv (x y : float64) : float64 :=
  match x, y with
  | NaN, _ | _, NaN => NaN
  | Fin a, Fin b =>
      match sgn b with
      | Eq => match sgn a with Eq => NaN | Gt => PInf | Lt => NInf end
      | _ => Fin (a / b)
      end
  | Fin _, _ => zero
  | PInf, Fin b => match sgn b with Lt => NInf | _ => PInf end
  | NInf, Fin b => match sgn b with Lt => PInf | _ => NInf end
  | _, _ => NaN
  end.

(** [x == y] and [x < y]; every comparison with nan is false. *)
Definition feqb (x y : float64) : bool :=
  match x, y with
  | Fin a, Fin b => Qc_eq_bool a b
  | PInf, PInf | NInf, NInf => true
  | _, _ => false
  end.

Definition fltb (x y : float64) : bool :=
  match x, y with
  | NaN, _ | _, NaN => false
  | Fin a, Fin b => match (a ?= b)%Qc with Lt => true | _ => false end
  | NInf, NInf | PInf, _ => false
  | NInf, _ | _, PInf => true
  | _, NInf => false
  end.

(** [fabs(x)] and [x <= y]. *)
Definition fabs (x : float64) : float64 :=
  match x with
  | Fin q => match sgn q with Lt => Fin (- q) | _ => Fin q end
  | PInf | NInf => PInf
  | NaN => NaN
  end.

Definition fleb (x y : float64) : bool := fltb x y || feqb x y.

(** The range of binary64 under rounding to nearest: a magnitude of at
    least [2^1024 - 2^970] rounds to infinity, one of at most [2^-1075]
    rounds to zero. *)
Definition overflow_bound : float64 :=
  Fin (Q2Qc (inject_Z (2 ^ 1024 - 2 ^ 970))).

Definition underflow_bound : float64 :=
  Fin (Q2Qc (1 # (2 ^ 1075))).

(** Python's [x ** 2] on a Python float: a finite base whose square is out
    of range raises [OverflowError], a square that underflows is 0.0. *)
Definition py_square (x : float64) : result float64 :=
  match x with
  | Fin q =>
      let v := Fin (q * q) in
      if fleb overflow_bound v then Raise OverflowError
      else if fleb v underflow_bound then Ret zero
      else Ret v
  | NaN => Ret NaN
  | PInf | NInf => Ret PInf
  end.

(** Python's [x / y] on two Python floats raises on a zero divisor. *)
Definition py_truediv (x y : float64) : result float64 :=
  if feqb y zero then Raise ZeroDivisionError else Ret (fdiv x y).

End F64.

Import F64.

Module Cx.

(** complex128: a pair of floats. *)
Record complex : Type := mk_complex { re : float64; im : float64 }.

Definition of_float (x : float64) : complex := mk_complex x zero.

Definition cadd (x y : complex) : complex :=
  mk_complex (fadd (re x) (re y)) (fadd (im x) (im y)).

(** numpy's product of two complex numbers. *)
Definition cmul (x y : complex) : complex :=
  mk_complex (fsub (fmul (re x) (re y)) (fmul (im x) (im y)))
             (fadd (fmul (re x) (im y)) (fmul (im x) (re y))).

(** numpy's quotient of two complex numbers (Smith's method, with its
    special case for a zero divisor). *)
Definition cdiv (x y : complex) : complex :=
  let in1r := re x in
  let in1i := im x in
  let in2r := re y in
  let in2i := im y in
  let in2r_abs := fabs in2r in
  let in2i_abs := fabs in2i in
  if fleb in2i_abs in2r_abs then
    if feqb in2r_abs zero && feqb in2i_abs zero then
      mk_complex (fdiv in1r in2r_abs) (fdiv in1i in2r_abs)
    else
      let rat := fdiv in2i in2r in
      let scl := fdiv one (fadd in2r (fmul in2i rat)) in
      mk_complex (fmul (fadd in1r (fmul in1i rat)) scl)
                 (fmul (fsub in1i (fmul in1r rat)) scl)
  else
    let rat := fdiv in2r in2i in
    let scl := fdiv one (fadd in2i (fmul in2r rat)) in
    mk_complex (fmul (fadd (fmul in1r rat) in1i) scl)
               (fmul (fsub (fmul in1i rat) in1r) scl).

(** The mixed operations of a complex array with a real one: numpy promotes
    the real operand to a complex number with a zero imaginary part and
    uses the complex operation. *)
Definition cmul_real (x : complex) (w : float64) : complex := cmul x (of_float w).

Definition cdiv_real (x : complex) (w : float64) : complex := cdiv x (of_float w).

(** [np.conj] *)
Definition conj (x : complex) : complex := mk_complex (re x) (fneg (im x)).

Definition ceqb (x y : complex) : bool := feqb (re x) (re y) && feqb (im x) (im y).

End Cx.

Import Cx.

(* ------------------------------------------------------------------ *)
(** ** numpy arrays *)

Module Np.

(** An array is its shape and the element stored at each index; only the
    indexes inside the shape are ever observed. *)
Record ndarray (A : Type) : Type :=
  mk_ndarray { shape : list nat; item : list nat -> A }.

Arguments mk_ndarray {A} shape item.

Section Arrays.
Context {A : Type}.

Definition ndim (a : ndarray A) : nat := List.length (shape a).

(** [idx] is an index of an array of shape [sh]. *)
Fixpoint in_bounds (idx sh : list nat) : bool :=
  match idx, sh with
  | [], [] => true
  | i :: idx', n :: sh' => (i <? n) && in_bounds idx' sh'
  | _, _ => false
  end.

(** A numpy scalar (a 0-d array). *)
Definition scalar (x : A) : ndarray A := mk_ndarray [] (fun _ => x).

(** [np.array] of a list, of a list of rows, of a list of planes
    ([d] fills what a ragged literal leaves out). *)
Definition array1 (d : A) (l : list A) : ndarray A :=
  mk_ndarray [List.length l] (fun idx => nth (nth 0 idx 0) l d).

Definition array2 (d : A) (rows : list (list A)) : ndarray A :=
  mk_ndarray [List.length rows; List.length (hd [] rows)]
    (fun idx => nth (nth 1 idx 0) (nth (nth 0 idx 0) rows []) d).

Definition array3 (d : A) (planes : list (list (list A))) : ndarray A :=
  mk_ndarray [List.length planes; List.length (hd [] planes);
              List.length (hd [] (hd [] planes))]
    (fun idx =>
       nth (nth 2 idx 0) (nth (nth 1 idx 0) (nth (nth 0 idx 0) planes []) []) d).

(** A 1-d array back as a list, a 2-d array as its rows. *)
Definition tolist1 (a : ndarray A) : list A :=
  map (fun i => item a [i]) (seq 0 (nth 0 (shape a) 0)).

Definition tolist2 (a : ndarray A) : list (list A) :=
  map (fun i => map (fun j => item a [i; j]) (seq 0 (nth 1 (shape a) 0)))
      (seq 0 (nth 0 (shape a) 0)).

(** Two arrays hold the same values: same shape, same element at every
    index of it. *)
Definition same_array (a b : ndarray A) : Prop :=
  shape a = shape b /\
  forall idx, in_bounds idx (shape a) = true -> item a idx = item b idx.

End Arrays.

(** *** Broadcasting *)

Definition broadcast_dim (m n : nat) : option nat :=
  if m =? n then Some m
  else if m =? 1 then Some n
  else if n =? 1 then Some m
  else None.

(** Shapes are aligned on their last dimension: this works on the
    reversed shapes. *)
Fixpoint broadcast_rev (a b : list nat) : option (list nat) :=
  match a, b with
  | [], _ => Some b
  | _, [] => Some a
  | m :: a', n :: b' =>
      match broadcast_dim m n, broadcast_rev a' b' with
      | Some d, Some r => Some (d :: r)
      | _, _ => None
      end
  end.

Definition broadcast_shapes (a b : list nat) : option (list nat) :=
  option_map (@rev nat) (broadcast_rev (rev a) (rev b)).

(** The index read in an operand of shape [sh] for the index [idx] of the
    broadcast result: leading axes the operand lacks are dropped, and an
    axis of length 1 is read at 0. *)
Fixpoint clamp (sh idx : list nat) : list nat :=
  match sh, idx with
  | n :: sh', i :: idx' => (if n =? 1 then 0 else i) :: clamp sh' idx'
  | _, _ => []
  end.

Definition bcast_index (sh idx : list nat) : list nat :=
  clamp sh (skipn (List.length idx - List.length sh) idx).

(** A binary ufunc ([*], [/], [==], ...) with element operation [f]. *)
Definition binop {A B C : Type} (f : A -> B -> C)
    (a : ndarray A) (b : ndarray B) : result (ndarray C) :=
  match broadcast_shapes (shape a) (shape b) with
  | None => Raise ValueError
  | Some sh =>
      Ret (mk_ndarray sh
             (fun idx => f (item a (bcast_index (shape a) idx))
                           (item b (bcast_index (shape b) idx))))
  end.

(** A unary ufunc, or a ufunc with a Python scalar as one operand. *)
Definition map_array {A B : Type} (f : A -> B) (a : ndarray A) : ndarray B :=
  mk_ndarray (shape a) (fun idx => f (item a idx)).

(** [np.ones(shape)] *)
Definition ones (sh : list nat) : ndarray float64 :=
  mk_ndarray sh (fun _ => one).

(** *** Reductions along an axis *)

Definition insert_at {A : Type} (k : nat) (x : A) (l : list A) : list A :=
  firstn k l ++ x :: skipn k l.

Definition remove_at {A : Type} (k : nat) (l : list A) : list A :=
  firstn k l ++ skipn (S k) l.

(** An axis argument, negative ones counting from the last axis. *)
Definition normalize_axis (axis : Z) (nd : nat) : result nat :=
  let n := Z.of_nat nd in
  if ((0 <=? axis) && (axis <? n))%Z then Ret (Z.to_nat axis)
  else if ((- n <=? axis) && (axis <? 0))%Z then Ret (Z.to_nat (axis + n))
  else Raise AxisError.

(** The reduction of a line of elements: from the first element on, or
    the operation's identity for an empty line. *)
Definition reduce_line {A : Type} (op : A -> A -> A) (unit : A) (l : list A) : A :=
  match l with
  | [] => unit
  | x :: rest => fold_left op rest x
  end.

(** A reduction along an axis.  On a 0-d array numpy accepts the axes 0
    and -1 and returns the array's one value. *)
Definition reduce {A : Type} (op : A -> A -> A) (unit : A)
    (a : ndarray A) (axis : Z) : result (ndarray A) :=
  match shape a with
  | [] => if ((axis =? 0) || (axis =? -1))%Z then Ret a else Raise AxisError
  | _ =>
      k <- normalize_axis axis (ndim a) ;;
      Ret (mk_ndarray (remove_at k (shape a))
             (fun idx =>
                reduce_line op unit
                  (map (fun p => item a (insert_at k p idx))
                       (seq 0 (nth k (shape a) 0)))))
  end.

(** [np.sum(a, axis=axis)] on a real and on a complex array,
    [np.any(a, axis=axis)] on a boolean one. *)
Definition np_sum (a : ndarray float64) (axis : Z) : result (ndarray float64) :=
  reduce fadd zero a axis.

Definition np_csum (a : ndarray complex) (axis : Z) : result (ndarray complex) :=
  reduce cadd (of_float zero) a axis.

Definition np_any (a : ndarray bool) (axis : Z) : result (ndarray bool) :=
  reduce orb false a axis.

(** [np.flip(a, axis=axis)] *)
Definition flip {A : Type} (a : ndarray A) (axis : Z) : result (ndarray A) :=
  k <- normalize_axis axis (ndim a) ;;
  Ret (mk_ndarray (shape a)
         (fun idx =>
            item a (firstn k idx
                      ++ (nth k (shape a) 0 - 1 - nth k idx 0) :: skipn (S k) idx))).

(** [np.diff] of a 1-d array, and the sum of all the elements of a
    boolean one. *)
Fixpoint diff (l : list float64) : list float64 :=
  match l with
  | x :: ((y :: _) as rest) => fsub y x :: diff rest
  | _ => []
  end.

Definition count_true (l : list bool) : nat :=
  fold_left (fun n (b : bool) => n + Nat.b2n b) l 0.

(** *** Index expressions of the source *)

(** [a[np.newaxis, :]]: the slice needs one axis to consume. *)
Definition newaxis_front {A : Type} (a : ndarray A) : result (ndarray A) :=
  match shape a with
  | [] => Raise IndexError
  | _ => Ret (mk_ndarray (1 :: shape a) (fun idx => item a (tl idx)))
  end.

(** [a[:, np.newaxis, :]]: the two slices need two axes. *)
Definition newaxis_middle {A : Type} (a : ndarray A) : result (ndarray A) :=
  if ndim a <? 2 then Raise IndexError
  else Ret (mk_ndarray (insert_at 1 1 (shape a))
              (fun idx => item a (remove_at 1 idx))).

(** [v[:, np.newaxis]] of a 1-d array: a column. *)
Definition column {A : Type} (d : A) (v : list A) : ndarray A :=
  mk_ndarray [List.length v; 1] (fun idx => nth (nth 0 idx 0) v d).

(** [a[:, ::-1, :]]: the second of at least three axes reversed. *)
Definition flip_axis1 {A : Type} (a : ndarray A) : result (ndarray A) :=
  if ndim a <? 3 then Raise IndexError
  else Ret (mk_ndarray (shape a)
              (fun idx =>
                 match idx with
                 | p :: c :: rest => item a (p :: (nth 1 (shape a) 0 - 1 - c) :: rest)
                 | _ => item a idx
                 end)).

(** What [a[:, xc]] accepts as [xc]: an array of indexes or a boolean
    mask over the axis. *)
Inductive indexer : Type :=
| Indexes (l : list Z)
| Mask (m : list bool).

(** The positions of the true elements ([np.where(m)[0]] of a 1-d [m]). *)
Fixpoint where_from (i : nat) (m : list bool) : list nat :=
  match m with
  | [] => []
  | b :: m' => if b then i :: where_from (S i) m' else where_from (S i) m'
  end.

Definition where_true (m : list bool) : list nat := where_from 0 m.

Fixpoint resolve_indexes (n : nat) (l : list Z) : result (list nat) :=
  match l with
  | [] => Ret []
  | z :: l' =>
      let j := if (z <? 0)%Z then (z + Z.of_nat n)%Z else z in
      if ((0 <=? j) && (j <? Z.of_nat n))%Z
      then (r <- resolve_indexes n l' ;; Ret (Z.to_nat j :: r))
      else Raise IndexError
  end.

Definition resolve (n : nat) (xc : indexer) : result (list nat) :=
  match xc with
  | Indexes l => resolve_indexes n l
  | Mask m => if List.length m =? n then Ret (where_true m) else Raise IndexError
  end.

(** [a[:, xc]] *)
Definition take_axis1 {A : Type} (a : ndarray A) (xc : indexer) : result (ndarray A) :=
  match shape a with
  | n0 :: n1 :: rest =>
      sel <- resolve n1 xc ;;
      Ret (mk_ndarray (n0 :: List.length sel :: rest)
             (fun idx =>
                match idx with
                | i :: j :: more => item a (i :: nth j sel 0 :: more)
                | _ => item a idx
                end))
  | _ => Raise IndexError
  end.

End Np.

Import Np.

(* ------------------------------------------------------------------ *)
(** ** process.py *)

(** [astropy.constants.c.value] (m/s) and the literal [1e-3]. *)
Definition c_value : float64 := of_Z 299792458.
Definition milli : float64 := of_Q (1 # 1000).

(** What a caller can pass as [data_shape]: a tuple of dimensions, or
    (as the pipeline does) a bare int. *)
Inductive pyobj : Type :=
| PyInt (n : nat)
| PyTuple (t : list nat).

(** [o[i]]: an int is not subscriptable. *)
Definition subscript (o : pyobj) (i : Z) : result nat :=
  match o with
  | PyInt _ => Raise TypeError
  | PyTuple t => getitem t i
  end.

(** A weight argument: "float or np.array". *)
Inductive weights : Type :=
| PyFloat (x : float64)
| NpArray (a : ndarray float64).

Definition broadcast_weights (weight : ndarray float64) (data_shape : pyobj)
    (chan_axis : Z) : result (ndarray float64) :=
  nchan <- subscript data_shape chan_axis ;;
  let broadcast := ones [nchan; 1] in
  w <- newaxis_front weight ;;
  binop fmul w broadcast.

Definition rescale_weights (weight : weights) (sigma_rescale : float64)
    : result weights :=
  s2 <- py_square sigma_rescale ;;
  match weight with
  | PyFloat x => y <- py_truediv x s2 ;; Ret (PyFloat y)
  | NpArray a => Ret (NpArray (map_array (fun w => fdiv w s2) a))
  end.

Definition average_weight_polarization (weight : ndarray float64)
    (polarization_axis : Z) : result (ndarray float64) :=
  np_sum weight polarization_axis.

Definition average_flag_polarization (flag : ndarray bool)
    (polarization_axis : Z) : result (ndarray bool) :=
  np_any flag polarization_axis.

(** Both arguments are numpy values (arrays, or numpy scalars as 0-d
    arrays). *)
Definition convert_baselines (baselines freq : ndarray float64)
    : result (ndarray float64) :=
  let wavelengths := map_array (fun f => fdiv c_value f) freq in
  binop fdiv (map_array (fun b => fmul milli b) baselines) wavelengths.

Definition broadcast_and_convert_baselines (u v chan_freq : list float64)
    : result (ndarray float64 * ndarray float64) :=
  let nchan := List.length chan_freq in
  let broadcast := ones [nchan; 1] in
  uu <- binop fmul (array1 NaN u) broadcast ;;
  vv <- binop fmul (array1 NaN v) broadcast ;;
  let wavelengths := map_array (fun f => fdiv c_value f) (column NaN chan_freq) in
  uu <- binop fdiv (map_array (fun b => fmul milli b) uu) wavelengths ;;
  vv <- binop fdiv (map_array (fun b => fmul milli b) vv) wavelengths ;;
  Ret (uu, vv).

Definition shape_message (data_shape weight_shape : list nat) : string :=
  ("I don't know what to do with provided data and weight arrays with shapes "
     ++ str_tuple data_shape ++ " and " ++ str_tuple weight_shape
     ++ ", respectively")%string.

Definition average_data_polarization (data : ndarray complex)
    (weight : ndarray float64) (polarization_axis : Z)
    : result (ndarray complex) :=
  npol <- getitem (shape data) polarization_axis ;;
  _ <- assert (npol =? 2) "Not recognized as a dual-polarization dataset" ;;
  norm <- average_weight_polarization weight polarization_axis ;;
  if ndim data =? ndim weight then
    prod <- binop cmul_real data weight ;;
    total <- np_csum prod polarization_axis ;;
    binop cdiv_real total norm
  else if (ndim data =? 3) && (ndim weight =? 2) then
    w3 <- newaxis_middle weight ;;
    prod <- binop cmul_real data w3 ;;
    total <- np_csum prod polarization_axis ;;
    binop cdiv_real total norm
  else
    Raise (RuntimeError (shape_message (shape data) (shape weight))).

Definition contains_autocorrelations (ant1 ant2 : list Z) : result bool :=
  autocorrelation_mask <- binop Z.eqb (array1 0%Z ant1) (array1 0%Z ant2) ;;
  Ret (0 <? count_true (tolist1 autocorrelation_mask)).

Definition get_crosscorrelation_indexes (ant1 ant2 : list Z) : result (list nat) :=
  mask <- binop (fun a b => negb (Z.eqb a b)) (array1 0%Z ant1) (array1 0%Z ant2) ;;
  Ret (where_true (tolist1 mask)).

Definition isdecreasing (chan_freq : list float64) : result bool :=
  let nchan := List.length chan_freq in
  if nchan =? 1 then Ret true
  else
    let diff := diff chan_freq in
    if forallb (fun d => fltb d zero) diff then Ret true
    else if forallb (fun d => fltb zero d) diff then Ret false
    else Raise (RuntimeError
      "chan_freq array is neither strictly decreasing nor strictly increasing, investigate what went wrong.").

Definition reverse_array {A : Type} (array : ndarray A) (channel_axis : Z)
    : result (ndarray A) :=
  flip array channel_axis.

(** *** The measurement-set query interface and the module's free names *)

Module Query.
(** One spectral window as the reader returns it. *)
Record t : Type := mk {
  uvw : list float64 * list float64 * list float64;
  weight : ndarray float64;
  data : ndarray complex;
  model_data : ndarray complex;
  flag : ndarray bool;
  antenna1 : list Z;
  antenna2 : list Z
}.
End Query.

Module Visibilities.
(** The dictionary [get_processed_visibilities] returns, a field per key. *)
Record t : Type := mk {
  frequencies : list float64;
  uu : ndarray float64;
  vv : ndarray float64;
  data : ndarray complex;
  model_data : ndarray complex;
  flag : ndarray bool;
  weight : ndarray float64
}.
End Visibilities.

(** process.py calls five names it neither defines nor imports.  Each is a
    global that the environment binds to a function, or leaves unbound. *)
Record Globals : Type := mk_globals {
  g_get_channels : option (string -> Z -> result (list float64));
  g_query_datadescid : option (string -> Z -> result Query.t);
  g_broadcast_baselines :
    option (list float64 -> list float64 -> list float64
            -> result (ndarray float64 * ndarray float64));
  g_average_polarizations :
    option (ndarray complex -> ndarray bool -> weights -> ndarray complex
            -> result (ndarray complex * ndarray bool * ndarray float64
                       * ndarray complex));
  g_get_crosscorrelation_mask : option (list Z -> list Z -> result indexer)
}.

(** The module as it is shipped: none of the five is bound. *)
Definition module_globals : Globals := mk_globals None None None None None.

Definition get_channel_sorted_data (g : Globals) (filename : string)
    (datadescid : Z)
    : result (list float64 * ndarray complex * ndarray complex * ndarray bool) :=
  get_channels <- global "get_channels" (g_get_channels g) ;;
  chan_freq <- get_channels filename datadescid ;;
  let nchan := List.length chan_freq in
  query_datadescid <- global "query_datadescid" (g_query_datadescid g) ;;
  query <- query_datadescid filename datadescid ;;
  let data := Query.data query in
  let model_data := Query.model_data query in
  let flag := Query.flag query in
  if (1 <? nchan) && fltb (nth 0 chan_freq NaN) (nth 1 chan_freq NaN) then
    let chan_freq := rev chan_freq in
    data <- flip_axis1 data ;;
    model_data <- flip_axis1 model_data ;;
    flag <- flip_axis1 flag ;;
    Ret (chan_freq, data, model_data, flag)
  else
    Ret (chan_freq, data, model_data, flag).

Definition get_processed_visibilities (g : Globals) (filename : string)
    (datadescid : Z) (sigma_rescale : float64) (model_data : bool)
    : result Visibilities.t :=
  sorted <- get_channel_sorted_data g filename datadescid ;;
  let '(chan_freq, data, model_data, flag) := sorted in
  let nchan := List.length chan_freq in
  query_datadescid <- global "query_datadescid" (g_query_datadescid g) ;;
  query <- query_datadescid filename datadescid ;;
  let '(uu, vv, ww) := Query.uvw query in
  broadcast_baselines <- global "broadcast_baselines" (g_broadcast_baselines g) ;;
  baselines <- broadcast_baselines uu vv chan_freq ;;
  let '(uu, vv) := baselines in
  let weight := Query.weight query in
  weight <- broadcast_weights weight (PyInt nchan) 0 ;;
  weight <- rescale_weights (NpArray weight) sigma_rescale ;;
  average_polarizations <-
    global "average_polarizations" (g_average_polarizations g) ;;
  averaged <- average_polarizations data flag weight model_data ;;
  let '(data, flag, weight, model_data) := averaged in
  let ant1 := Query.antenna1 query in
  let ant2 := Query.antenna2 query in
  get_crosscorrelation_mask <-
    global "get_crosscorrelation_mask" (g_get_crosscorrelation_mask g) ;;
  xc <- get_crosscorrelation_mask ant1 ant2 ;;
  uu <- take_axis1 uu xc ;;
  vv <- take_axis1 vv xc ;;
  data <- take_axis1 data xc ;;
  model_data <- take_axis1 model_data xc ;;
  flag <- take_axis1 flag xc ;;
  weight <- take_axis1 weight xc ;;
  let data := map_array conj data in
  let model_data := map_array conj model_data in
  Ret (Visibilities.mk chan_freq uu vv data model_data flag weight).

(* ------------------------------------------------------------------ *)
(** ** A synthetic spectral window

    Two channels of increasing frequency, two polarizations and three
    baselines, the second of which is an autocorrelation; and an
    environment that binds the five free names of the module. *)

Module Synthetic.

Definition cplx (a b : Z) : complex := mk_complex (of_Z a) (of_Z b).

Definition chan_freq : list float64 := [of_Z 230000000000; of_Z 230100000000].

Definition query : Query.t :=
  Query.mk
    ([of_Z 10; of_Z 0; of_Z 20], [of_Z 5; of_Z 0; of_Z (-7)],
     [of_Z 0; of_Z 0; of_Z 0])
    (array2 NaN [[of_Z 1; of_Z 2; of_Z 3]; [of_Z 3; of_Z 2; of_Z 1]])
    (array3 (cplx 0 0)
       [[[cplx 1 1; cplx 2 0; cplx 3 (-1)]; [cplx 4 1; cplx 5 0; cplx 6 (-1)]];
        [[cplx 1 3; cplx 2 2; cplx 3 1]; [cplx 4 3; cplx 5 2; cplx 6 1]]])
    (array3 (cplx 0 0)
       [[[cplx 1 0; cplx 1 0; cplx 1 0]; [cplx 2 0; cplx 2 0; cplx 2 0]];
        [[cplx 1 0; cplx 1 0; cplx 1 0]; [cplx 2 0; cplx 2 0; cplx 2 0]]])
    (array3 false
       [[[false; false; false]; [false; false; true]];
        [[false; false; false]; [false; false; false]]])
    [0; 1; 0]%Z [1; 1; 2]%Z.

(** The reader of the measurement set, whatever the file and window. *)
Definition get_channels (filename : string) (datadescid : Z)
    : result (list float64) :=
  Ret chan_freq.

Definition query_datadescid (filename : string) (datadescid : Z)
    : result Query.t :=
  Ret query.

(** Modelled from the spec: [broadcast_baselines], which process.py calls
    and does not define; step 3 of the pipeline broadcasts and converts
    the baselines to kilolambda per channel. *)
Definition broadcast_baselines (u v chan_freq : list float64)
    : result (ndarray float64 * ndarray float64) :=
  broadcast_and_convert_baselines u v chan_freq.

(** Modelled from the spec: [average_polarizations], which process.py
    calls and does not define; step 5 of the pipeline reduces data, flag,
    weight and model data across polarization. *)
Definition average_polarizations (data : ndarray complex) (flag : ndarray bool)
    (weight : weights) (model_data : ndarray complex)
    : result (ndarray complex * ndarray bool * ndarray float64 * ndarray complex) :=
  let w := match weight with NpArray a => a | PyFloat x => scalar x end in
  d <- average_data_polarization data w 0 ;;
  f <- average_flag_polarization flag 0 ;;
  ww <- average_weight_polarization w 0 ;;
  m <- average_data_polarization model_data w 0 ;;
  Ret (d, f, ww, m).

(** Modelled from the spec: [get_crosscorrelation_mask], which process.py
    calls and does not define; step 6 of the pipeline computes the
    cross-correlation index set. *)
Definition get_crosscorrelation_mask (ant1 ant2 : list Z) : result indexer :=
  xc <- get_crosscorrelation_indexes ant1 ant2 ;;
  Ret (Indexes (map Z.of_nat xc)).

Definition globals : Globals :=
  mk_globals (Some get_channels) (Some query_datadescid)
    (Some broadcast_baselines) (Some average_polarizations)
    (Some get_crosscorrelation_mask).

End Synthetic.

(* ------------------------------------------------------------------ *)
(** ** Vocabulary of the statements *)

(** The first differences of a frequency array are all negative, all
    positive. *)
Definition all_negative (d : list float64) : Prop :=
  Forall (fun x => fltb x zero = true) d.

Definition all_positive (d : list float64) : Prop :=
  Forall (fun x => fltb zero x = true) d.

(** Strictly increasing and strictly decreasing frequency arrays. *)
Definition increasing (l : list float64) : Prop :=
  forall i, S i < List.length l -> fltb (nth i l NaN) (nth (S i) l NaN) = true.

Definition decreasing (l : list float64) : Prop :=
  forall i, S i < List.length l -> fltb (nth (S i) l NaN) (nth i l NaN) = true.

(** [b] is [a] with its channels (axis 1, of length [nchan]) read through
    the channel map [sigma]. *)
Definition channels_mapped {A : Type} (sigma : nat -> nat) (nchan : nat)
    (a b : ndarray A) : Prop :=
  shape b = shape a /\
  forall p c rest, c < nchan ->
    item b (p :: c :: rest) = item a (p :: sigma c :: rest).

(** An array is channelized on axis 1: it has at least the three axes that
    [a[:, ::-1, :]] indexes, and axis 1 has the [nchan] channels. *)
Definition channelized {A : Type} (nchan : nat) (a : ndarray A) : Prop :=
  3 <= ndim a /\ nth 1 (shape a) 0 = nchan.

(** Row [i] of a 2-d array, as a 1-d array. *)
Definition row {A : Type} (i : nat) (a : ndarray A) : ndarray A :=
  mk_ndarray (tl (shape a)) (fun idx => item a (i :: idx)).


(** The weighted mean of the two polarizations of one sample:
    [sum(data * weight) / sum(weight)] across a polarization axis of
    length 2. *)
Definition weighted_mean2 (d0 : complex) (w0 : float64) (d1 : complex)
    (w1 : float64) : complex :=
  cdiv_real (cadd (cmul_real d0 w0) (cmul_real d1 w1)) (fadd w0 w1).


(** A tuple or an array of [n] axes has the axis [axis]. *)
Definition axis_in (axis : Z) (n : nat) : Prop :=
  (- Z.of_nat n <= axis < Z.of_nat n)%Z.

(** numpy can reduce an array of shape [sh] along [axis]: the array has
    the axis, or it is 0-d and the axis is 0 or -1. *)
Definition reducible (axis : Z) (sh : list nat) : Prop :=
  axis_in axis (List.length sh) \/ (sh = [] /\ (axis = 0 \/ axis = -1)%Z).

(** A list of indexes is strictly increasing. *)
Definition strictly_increasing (l : list nat) : Prop := StronglySorted lt l.

(* ------------------------------------------------------------------ *)
(** * Properties *)

(** ** Arithmetic of the element type *)

Section FloatFacts.

Local Open Scope Qc_scope.

Lemma sgn_Eq (q : Qc) : sgn q = Eq <-> q = 0.
Proof. unfold sgn. symmetry. apply Qceq_alt. Qed.

Lemma sgn_nonzero (q : Qc) : q <> 0 -> sgn q <> Eq.
Proof. intros H E. apply H, sgn_Eq, E. Qed.

Lemma Qc_square_nonzero (q : Qc) : q <> 0 -> q * q <> 0.
Proof. intros H E. destruct (Qcmult_integral _ _ E); contradiction. Qed.

Lemma Qc_div_one_squared (q : Qc) : q / (1 * 1) = q.
Proof.
  rewrite Qcmult_1_l. unfold Qcdiv.
  replace (/ 1) with 1 by (apply Qc_is_canon; reflexivity).
  apply Qcmult_1_r.
Qed.

Lemma fdiv_fin (a b : Qc) : b <> 0 -> fdiv (Fin a) (Fin b) = Fin (a / b).
Proof.
  intros H. unfold fdiv. destruct (sgn b) eqn:E; try reflexivity.
  apply sgn_Eq in E. contradiction.
Qed.

Lemma fdiv_fin_zero (a : Qc) :
  fdiv (Fin a) zero = match sgn a with Eq => NaN | Gt => PInf | Lt => NInf end.
Proof. reflexivity. Qed.

Lemma fmul_one_r (x : float64) : fmul x one = x.
Proof.
  destruct x; try reflexivity.
  unfold one, of_Z, fmul. f_equal. apply Qcmult_1_r.
Qed.

Lemma fdiv_one_r (x : float64) : fdiv x one = x.
Proof.
  destruct x; try reflexivity.
  unfold one, of_Z. change (Q2Qc (inject_Z 1)) with 1.
  rewrite fdiv_fin by discriminate. f_equal.
  rewrite <- (Qc_div_one_squared q) at 2. now rewrite Qcmult_1_l.
Qed.

(** The square of a finite float, by the range it falls in. *)
Lemma py_square_fin (q : Qc) :
  py_square (Fin q)
  = if fleb overflow_bound (Fin (q * q)) then Raise OverflowError
    else if fleb (Fin (q * q)) underflow_bound then Ret zero
    else Ret (Fin (q * q)).
Proof. reflexivity. Qed.

Lemma py_square_one : py_square one = Ret one.
Proof.
  unfold one, of_Z. change (Q2Qc (inject_Z 1)) with 1.
  rewrite py_square_fin, Qcmult_1_l.
  replace (fleb overflow_bound (Fin 1)) with false by (vm_compute; reflexivity).
  replace (fleb (Fin 1) underflow_bound) with false by (vm_compute; reflexivity).
  reflexivity.
Qed.


Lemma feqb_fin_zero (q : Qc) : feqb (Fin q) zero = true <-> q = 0.
Proof.
  unfold zero, of_Z, feqb, Qc_eq_bool.
  change (Q2Qc (inject_Z 0)) with 0.
  destruct (Qc_eq_dec q 0); split; congruence.
Qed.

Lemma feqb_zero (x : float64) : feqb x zero = true <-> x = zero.
Proof.
  destruct x; try (split; discriminate).
  rewrite feqb_fin_zero. unfold zero, of_Z.
  change (Q2Qc (inject_Z 0)) with 0. split; congruence.
Qed.


Lemma fltb_asym (x y : float64) : fltb x y = true -> fltb y x = false.
Proof.
  destruct x, y; simpl; try congruence.
  unfold Qccompare. rewrite <- (Qcompare_antisym q q0).
  destruct (q ?= q0)%Q; simpl; congruence.
Qed.

Lemma feqb_eq (x y : float64) : feqb x y = true -> x = y.
Proof.
  destruct x, y; simpl; try discriminate; try reflexivity.
  intros H. f_equal. now apply Qc_eq_bool_correct.
Qed.

Lemma ceqb_eq (x y : complex) : ceqb x y = true -> x = y.
Proof.
  destruct x, y. unfold ceqb. simpl. intros H. apply andb_prop in H.
  destruct H as [H1 H2]. apply feqb_eq in H1, H2. now subst.
Qed.

End FloatFacts.

(** From here on the arithmetic is used through the lemmas above. *)
Arguments fadd : simpl never.
Arguments fmul : simpl never.
Arguments fdiv : simpl never.
Arguments fneg : simpl never.
Arguments fltb : simpl never.
Arguments feqb : simpl never.

(** ** The complex operations with a real operand *)

Section ComplexFacts.

Local Open Scope Qc_scope.

Lemma fin_zero : Fin 0 = zero.
Proof. reflexivity. Qed.

Lemma fin_one : Fin 1 = one.
Proof. reflexivity. Qed.

Lemma fmul_nan_r (x : float64) : fmul x NaN = NaN.
Proof. now destruct x. Qed.

Lemma fmul_zero_zero : fmul zero zero = zero.
Proof. apply feqb_eq. vm_compute. reflexivity. Qed.

Lemma fadd_zero_r (x : float64) : fadd x zero = x.
Proof.
  destruct x; try reflexivity. unfold zero, of_Z, fadd. f_equal.
  change (Q2Qc (inject_Z 0)) with 0. ring.
Qed.

(** A product by zero is its own opposite: it is zero or nan. *)
Lemma fneg_fmul_zero (x : float64) : fneg (fmul x zero) = fmul x zero.
Proof.
  destruct x; try reflexivity. unfold zero, of_Z, fmul, fneg. f_equal.
  change (Q2Qc (inject_Z 0)) with 0. ring.
Qed.

Lemma fdiv_zero_l (w : float64) :
  w <> NaN -> feqb w zero = false -> fdiv zero w = zero.
Proof.
  intros Hn Hz. destruct w as [q| | |]; try reflexivity; [|congruence].
  assert (Hq : q <> 0).
  { intros E. subst q. rewrite fin_zero in Hz.
    replace (feqb zero zero) with true in Hz by reflexivity. discriminate. }
  unfold zero, of_Z. change (Q2Qc (inject_Z 0)) with 0.
  rewrite (fdiv_fin _ Hq). f_equal. unfold Qcdiv. ring.
Qed.

Lemma fltb_fin_lt (a b : Qc) : a < b -> fltb (Fin a) (Fin b) = true.
Proof. intros H. unfold fltb. rewrite Qclt_alt in H. now rewrite H. Qed.

Lemma fabs_fin_nonzero (q : Qc) :
  q <> 0 ->
  fleb (fabs zero) (fabs (Fin q)) = true
  /\ feqb (fabs (Fin q)) zero = false.
Proof.
  intros Hq. change (fabs zero) with zero. unfold fabs, fleb.
  destruct (sgn q) eqn:E.
  - apply sgn_Eq in E. contradiction.
  - assert (H : fltb zero (Fin (- q)) = true).
    { rewrite <- fin_zero. apply fltb_fin_lt.
      apply Qclt_alt in E. apply (Qclt_minus_iff q 0) in E.
      now replace (0 + - q) with (- q) in E by ring. }
    rewrite H. split; [reflexivity|].
    destruct (feqb (Fin (- q)) zero) eqn:Ez; [|reflexivity].
    apply feqb_fin_zero in Ez. exfalso. apply Hq.
    replace q with (- - q) by ring. rewrite Ez. ring.
  - assert (H : fltb zero (Fin q) = true).
    { rewrite <- fin_zero. apply fltb_fin_lt. now apply Qcgt_alt in E. }
    rewrite H. split; [reflexivity|].
    destruct (feqb (Fin q) zero) eqn:Ez; [|reflexivity].
    apply feqb_fin_zero in Ez. contradiction.
Qed.

(** The quotient by a real number that is neither zero nor nan. *)
Lemma cdiv_real_regular (x : complex) (w : float64) :
  w <> NaN -> feqb w zero = false ->
  cdiv_real x w
  = mk_complex (fmul (fadd (re x) (fmul (im x) zero)) (fdiv one w))
               (fmul (fsub (im x) (fmul (re x) zero)) (fdiv one w)).
Proof.
  intros Hn Hz. unfold cdiv_real, cdiv, of_float. cbn [re im].
  rewrite (fdiv_zero_l Hn Hz), fmul_zero_zero, fadd_zero_r.
  destruct w as [q| | |]; try reflexivity; [|congruence].
  assert (Hq : q <> 0).
  { intros E. subst q. rewrite fin_zero in Hz.
    replace (feqb zero zero) with true in Hz by reflexivity. discriminate. }
  destruct (fabs_fin_nonzero Hq) as [H1 H2]. rewrite H1, H2. reflexivity.
Qed.

(** The quotient by zero and by nan. *)
Lemma cdiv_real_zero (x : complex) :
  cdiv_real x zero = mk_complex (fdiv (re x) zero) (fdiv (im x) zero).
Proof. reflexivity. Qed.

Lemma cdiv_real_nan (x : complex) : cdiv_real x NaN = mk_complex NaN NaN.
Proof.
  unfold cdiv_real, cdiv, of_float. cbn [re im].
  change (fleb (fabs zero) (fabs NaN)) with false. cbv iota.
  change (fdiv NaN zero) with NaN.
  now rewrite !fmul_nan_r.
Qed.

(** The product with a real number. *)
Lemma cmul_real_parts (x : complex) (w : float64) :
  cmul_real x w
  = mk_complex (fsub (fmul (re x) w) (fmul (im x) zero))
               (fadd (fmul (re x) zero) (fmul (im x) w)).
Proof. reflexivity. Qed.

(** On finite values the two operations are the componentwise ones. *)
Lemma cmul_real_finite (a b w : Qc) :
  cmul_real (mk_complex (Fin a) (Fin b)) (Fin w)
  = mk_complex (Fin (a * w)) (Fin (b * w)).
Proof.
  rewrite cmul_real_parts. cbn [re im].
  unfold fsub, fadd, fmul, fneg, zero, of_Z.
  change (Q2Qc (inject_Z 0)) with 0. f_equal; f_equal; ring.
Qed.


End ComplexFacts.

(** ** rescale_weights *)

(** C10: with [sigma_rescale = 1.0], the default of the pipeline,
    [rescale_weights] is the identity: an array of weights comes back with
    its shape and every element unchanged, and so does a scalar weight. *)
Theorem rescale_weights_one_identity :
  (forall w : ndarray float64,
      exists w', rescale_weights (NpArray w) one = Ret (NpArray w')
                 /\ shape w' = shape w
                 /\ (forall idx, item w' idx = item w idx)
                 /\ same_array w' w)
  /\ (forall x : float64, rescale_weights (PyFloat x) one = Ret (PyFloat x)).
Proof.
  unfold rescale_weights. rewrite py_square_one. simpl bind. split.
  - intros w. eexists. split; [reflexivity|].
    assert (E : forall idx,
               item (map_array (fun x => fdiv x one) w) idx = item w idx)
      by (intros idx; simpl; apply fdiv_one_r).
    repeat split; auto.
  - intros x. unfold py_truediv.
    replace (feqb one zero) with false by (vm_compute; reflexivity).
    simpl. now rewrite fdiv_one_r.
Qed.



(** The range of [sigma_rescale**2]: [2.0**600] overflows, and [2.0**-600]
    is not zero but its square is, so that a scalar weight is divided by
    zero. *)
Example rescale_weights_out_of_range :
  rescale_weights (NpArray (array1 NaN [of_Z 1])) (of_Z (2 ^ 600))
  = Raise OverflowError
  /\ feqb (of_Q (1 # (2 ^ 600))) zero = false
  /\ rescale_weights (PyFloat (of_Z 1)) (of_Q (1 # (2 ^ 600)))
     = Raise ZeroDivisionError.
Proof. split; [|split]; vm_compute; reflexivity. Qed.

(** ** isdecreasing *)

Lemma diff_length (l : list float64) : List.length (diff l) = List.length l - 1.
Proof.
  induction l as [|x [|y l'] IH]; try reflexivity.
  change (diff (x :: y :: l')) with (fsub y x :: diff (y :: l')).
  simpl List.length in *. lia.
Qed.

(** Element [i] of [np.diff(l)] is [l[i+1] - l[i]]. *)
Lemma diff_nth (l : list float64) (i : nat) :
  S i < List.length l ->
  nth i (diff l) NaN = fsub (nth (S i) l NaN) (nth i l NaN).
Proof.
  revert i. induction l as [|x [|y l'] IH]; intros i Hi; simpl in Hi; try lia.
  change (diff (x :: y :: l')) with (fsub y x :: diff (y :: l')).
  destruct i as [|i]; [reflexivity|].
  change (nth (S i) (fsub y x :: diff (y :: l')) NaN) with (nth i (diff (y :: l')) NaN).
  rewrite IH by (simpl; lia). reflexivity.
Qed.

Lemma forallb_Forall_true {A : Type} (f : A -> bool) (l : list A) :
  forallb f l = true <-> Forall (fun x => f x = true) l.
Proof. rewrite forallb_forall, Forall_forall. reflexivity. Qed.

(** With at least one difference, the two signs exclude each other. *)
Lemma negative_not_positive (d : list float64) :
  d <> [] -> all_negative d -> ~ all_positive d.
Proof.
  destruct d as [|x d]; [congruence|].
  intros _ Hn Hp. inversion Hn; inversion Hp; subst.
  match goal with H : fltb x zero = true |- _ => apply fltb_asym in H end.
  congruence.
Qed.

(** C5: [isdecreasing] is [True] on every array of length at most 1; on a
    longer array it is [True] exactly when all first differences are
    negative, [False] exactly when all are positive, and it raises exactly
    when neither holds; [3,2,1] gives [True], [1,2,3] gives [False] and
    [1,3,2] raises. *)
Theorem isdecreasing_spec :
  (forall l, List.length l <= 1 -> isdecreasing l = Ret true)
  /\ (forall l, 2 <= List.length l ->
        (isdecreasing l = Ret true <-> all_negative (diff l))
        /\ (isdecreasing l = Ret false <-> all_positive (diff l))
        /\ ((exists e, isdecreasing l = Raise e)
            <-> ~ all_negative (diff l) /\ ~ all_positive (diff l)))
  /\ isdecreasing [of_Z 3; of_Z 2; of_Z 1] = Ret true
  /\ isdecreasing [of_Z 1; of_Z 2; of_Z 3] = Ret false
  /\ raises (isdecreasing [of_Z 1; of_Z 3; of_Z 2]) = true.
Proof.
  split; [|split; [|repeat split; reflexivity]].
  - intros [|x [|y l]] H; simpl in H; try lia; reflexivity.
  - intros l Hl. unfold isdecreasing.
    assert (Hd : diff l <> []).
    { intros E. pose proof (diff_length l) as D. rewrite E in D. simpl in D. lia. }
    destruct (List.length l =? 1) eqn:E1; [apply Nat.eqb_eq in E1; lia|].
    cbv zeta.
    assert (Hn : forallb (fun d => fltb d zero) (diff l) = true
                 <-> all_negative (diff l)) by apply forallb_Forall_true.
    assert (Hp : forallb (fun d => fltb zero d) (diff l) = true
                 <-> all_positive (diff l)) by apply forallb_Forall_true.
    pose proof (@negative_not_positive (diff l) Hd) as Hx.
    destruct (forallb (fun d => fltb d zero) (diff l));
      [|destruct (forallb (fun d => fltb zero d) (diff l))].
    + assert (all_negative (diff l)) by (now apply Hn).
      split; [|split]; split; intros; try tauto; try discriminate.
      destruct H0; discriminate.
    + assert (all_positive (diff l)) by (now apply Hp).
      assert (~ all_negative (diff l)) by (intros Hc; apply Hn in Hc; discriminate).
      split; [|split]; split; intros; try tauto; try discriminate.
      destruct H1; discriminate.
    + assert (~ all_negative (diff l)) by (intros Hc; apply Hn in Hc; discriminate).
      assert (~ all_positive (diff l)) by (intros Hc; apply Hp in Hc; discriminate).
      split; [|split]; split; intros; try tauto; try discriminate.
      eexists. reflexivity.
Qed.

(** ** Broadcasting and indexes *)

Section ArrayFacts.

Lemma broadcast_dim_refl (n : nat) : broadcast_dim n n = Some n.
Proof. unfold broadcast_dim. now rewrite Nat.eqb_refl. Qed.

Lemma broadcast_dim_1_r (n : nat) : broadcast_dim n 1 = Some n.
Proof.
  unfold broadcast_dim. destruct (n =? 1) eqn:E; [|reflexivity].
  apply Nat.eqb_eq in E. now subst.
Qed.

Lemma broadcast_dim_1_l (n : nat) : broadcast_dim 1 n = Some n.
Proof.
  unfold broadcast_dim. destruct (1 =? n) eqn:E; [|reflexivity].
  apply Nat.eqb_eq in E. now subst.
Qed.

Lemma broadcast_rev_refl (l : list nat) : broadcast_rev l l = Some l.
Proof.
  induction l as [|n l IH]; [reflexivity|].
  simpl. now rewrite broadcast_dim_refl, IH.
Qed.

Lemma broadcast_shapes_refl (sh : list nat) : broadcast_shapes sh sh = Some sh.
Proof.
  unfold broadcast_shapes. rewrite broadcast_rev_refl. simpl.
  now rewrite rev_involutive.
Qed.

(** An index inside a dimension is read as it is, whether or not the
    dimension is 1. *)
Lemma clamp_dim (n i : nat) : i < n -> (if n =? 1 then 0 else i) = i.
Proof.
  intros H. destruct (n =? 1) eqn:E; [|reflexivity].
  apply Nat.eqb_eq in E. lia.
Qed.

Lemma in_bounds_length (idx sh : list nat) :
  in_bounds idx sh = true -> List.length idx = List.length sh.
Proof.
  revert sh. induction idx as [|i idx IH]; intros [|n sh] H; simpl in *;
    try discriminate; [reflexivity|].
  apply andb_prop in H. destruct H as [_ H]. f_equal. now apply IH.
Qed.

Lemma clamp_in_bounds (idx sh : list nat) :
  in_bounds idx sh = true -> clamp sh idx = idx.
Proof.
  revert sh. induction idx as [|i idx IH]; intros [|n sh] H; simpl in *;
    try discriminate; [reflexivity|].
  apply andb_prop in H. destruct H as [Hi H]. apply Nat.ltb_lt in Hi.
  rewrite (clamp_dim Hi). f_equal. now apply IH.
Qed.

Lemma bcast_index_in_bounds (idx sh : list nat) :
  in_bounds idx sh = true -> bcast_index sh idx = idx.
Proof.
  intros H. unfold bcast_index.
  rewrite (in_bounds_length _ _ H), Nat.sub_diag. simpl.
  now apply clamp_in_bounds.
Qed.

(** A ufunc on two arrays of one shape. *)
Lemma binop_same_shape {A B C : Type} (f : A -> B -> C)
    (a : ndarray A) (b : ndarray B) :
  shape a = shape b ->
  exists r, binop f a b = Ret r
            /\ shape r = shape a
            /\ forall idx, in_bounds idx (shape a) = true ->
                           item r idx = f (item a idx) (item b idx).
Proof.
  intros E. unfold binop. rewrite <- E, broadcast_shapes_refl.
  eexists. split; [reflexivity|]. split; [reflexivity|].
  intros idx H. simpl. now rewrite (bcast_index_in_bounds _ _ H).
Qed.

(** A ufunc on two 1-d arrays of one length, as a list. *)
Lemma binop_lists {A B C : Type} (f : A -> B -> C) (da : A) (db : B)
    (la : list A) (lb : list B) :
  List.length la = List.length lb ->
  exists r, binop f (array1 da la) (array1 db lb) = Ret r
            /\ tolist1 r
               = map (fun i => f (nth i la da) (nth i lb db))
                     (seq 0 (List.length la)).
Proof.
  intros E.
  destruct (@binop_same_shape A B C f (array1 da la) (array1 db lb))
    as [r [Hr [Hs Hi]]]; [simpl; now rewrite E|].
  exists r. split; [exact Hr|].
  unfold tolist1. rewrite Hs. simpl.
  apply map_ext_in. intros i Hin. apply in_seq in Hin.
  rewrite Hi; [reflexivity|].
  simpl. rewrite andb_true_r. apply Nat.ltb_lt. lia.
Qed.

End ArrayFacts.

(** ** The cross-correlation filter *)

Section WhereFacts.

Lemma where_from_In (m : list bool) (k i : nat) :
  In i (where_from k m) <-> k <= i /\ nth (i - k) m false = true.
Proof.
  revert k. induction m as [|b m IH]; intros k; simpl.
  - split; [tauto|]. intros [_ H]. destruct (i - k); discriminate.
  - assert (Hstep : In i (where_from (S k) m)
                    <-> S k <= i /\ nth (i - S k) m false = true) by apply IH.
    destruct b; simpl; rewrite ?Hstep; clear Hstep IH.
    + split.
      * intros [E | [H1 H2]].
        -- subst. rewrite Nat.sub_diag. split; [lia|reflexivity].
        -- split; [lia|]. replace (i - k) with (S (i - S k)) by lia. exact H2.
      * intros [H1 H2]. destruct (Nat.eq_dec k i) as [E|N]; [now left|right].
        split; [lia|]. replace (i - k) with (S (i - S k)) in H2 by lia. exact H2.
    + split.
      * intros [H1 H2]. split; [lia|].
        replace (i - k) with (S (i - S k)) by lia. exact H2.
      * intros [H1 H2]. destruct (i - k) as [|j] eqn:E; [discriminate|].
        split; [lia|]. replace (i - S k) with j by lia. exact H2.
Qed.

Lemma where_from_sorted (m : list bool) (k : nat) :
  StronglySorted lt (where_from k m).
Proof.
  revert k. induction m as [|b m IH]; intros k; simpl; [constructor|].
  destruct b; [|apply IH].
  constructor; [apply IH|].
  apply Forall_forall. intros i Hi. apply where_from_In in Hi. lia.
Qed.

Lemma count_true_zero (l : list bool) (n : nat) :
  fold_left (fun n (b : bool) => n + Nat.b2n b) l n = 0
  <-> n = 0 /\ forall i, nth i l false = false.
Proof.
  revert n. induction l as [|b l IH]; intros n; simpl.
  - split; [intros H; split; [exact H|intros [|i]; reflexivity]|tauto].
  - rewrite IH. split.
    + intros [H1 H2]. destruct b; simpl in H1; [lia|].
      split; [lia|]. intros [|i]; [reflexivity|apply H2].
    + intros [H1 H2]. pose proof (H2 0) as H0. simpl in H0. subst b n.
      split; [reflexivity|]. intros i. apply (H2 (S i)).
Qed.

Lemma nth_map_seq {A : Type} (f : nat -> A) (n i : nat) (d : A) :
  i < n -> nth i (map f (seq 0 n)) d = f i.
Proof.
  intros H. rewrite (nth_indep _ d (f 0)) by (rewrite length_map, length_seq; exact H).
  rewrite (map_nth f (seq 0 n) 0 i), seq_nth by exact H. reflexivity.
Qed.

Lemma nth_map_seq_false (f : nat -> bool) (n i : nat) :
  nth i (map f (seq 0 n)) false = true <-> i < n /\ f i = true.
Proof.
  destruct (Nat.lt_ge_cases i n) as [H|H].
  - rewrite nth_map_seq by exact H. tauto.
  - rewrite nth_overflow by (rewrite length_map, length_seq; exact H).
    split; [discriminate|lia].
Qed.

End WhereFacts.

(** C9: on antenna arrays of one length, the indexes that
    [get_crosscorrelation_indexes] returns are strictly increasing and are
    the positions where the two antennas differ, and
    [contains_autocorrelations] is [False] exactly when every position
    [0 .. nvis-1] is among them. *)
Theorem crosscorrelation_indexes_agree (ant1 ant2 : list Z) :
  List.length ant1 = List.length ant2 ->
  exists xc autos,
    get_crosscorrelation_indexes ant1 ant2 = Ret xc
    /\ contains_autocorrelations ant1 ant2 = Ret autos
    /\ strictly_increasing xc
    /\ (forall i, In i xc <-> i < List.length ant1 /\ nth i ant1 0%Z <> nth i ant2 0%Z)
    /\ (autos = false <-> forall i, i < List.length ant1 -> In i xc).
Proof.
  intros E.
  destruct (binop_lists (fun a b => negb (Z.eqb a b)) 0%Z 0%Z ant1 ant2 E)
    as [ne [Hne Lne]].
  destruct (binop_lists Z.eqb 0%Z 0%Z ant1 ant2 E) as [eq [Heq Leq]].
  unfold get_crosscorrelation_indexes, contains_autocorrelations.
  rewrite Hne, Heq. simpl bind. rewrite Lne, Leq.
  set (n := List.length ant1).
  assert (Hin : forall i,
             In i (where_true (map (fun i => negb (nth i ant1 0 =? nth i ant2 0)%Z)
                                   (seq 0 n)))
             <-> i < n /\ nth i ant1 0%Z <> nth i ant2 0%Z).
  { intros i. unfold where_true. rewrite where_from_In, Nat.sub_0_r.
    rewrite nth_map_seq_false, negb_true_iff, Z.eqb_neq. intuition lia. }
  eexists. eexists. split; [reflexivity|]. split; [reflexivity|].
  split; [apply where_from_sorted|]. split; [exact Hin|].
  unfold count_true.
  destruct (fold_left _ _ 0) as [|c] eqn:Ec.
  - apply count_true_zero in Ec. destruct Ec as [_ Ec].
    split; [|reflexivity]. intros _ i Hi. apply Hin. split; [exact Hi|].
    specialize (Ec i). rewrite nth_map_seq in Ec by exact Hi.
    now apply Z.eqb_neq.
  - split; [discriminate|]. intros Hall. exfalso.
    assert (Ez : fold_left (fun n (b : bool) => n + Nat.b2n b)
                   (map (fun i => (nth i ant1 0 =? nth i ant2 0)%Z) (seq 0 n)) 0 = 0).
    { apply count_true_zero. split; [reflexivity|]. intros i.
      destruct (Nat.lt_ge_cases i n) as [H|H].
      - rewrite nth_map_seq by exact H. apply Z.eqb_neq.
        apply (Hin i), Hall, H.
      - apply nth_overflow. rewrite length_map, length_seq. exact H. }
    rewrite Ez in Ec. discriminate.
Qed.

(** The theorem on the antennas [[1,2,3]] and [[2,1,3]]. *)
Lemma crosscorrelation_indexes_agree_witness :
  exists xc autos,
    get_crosscorrelation_indexes [1; 2; 3]%Z [2; 1; 3]%Z = Ret xc
    /\ contains_autocorrelations [1; 2; 3]%Z [2; 1; 3]%Z = Ret autos
    /\ strictly_increasing xc
    /\ (forall i, In i xc <-> i < 3 /\ nth i [1; 2; 3]%Z 0%Z <> nth i [2; 1; 3]%Z 0%Z)
    /\ (autos = false <-> forall i, i < 3 -> In i xc).
Proof. exact (@crosscorrelation_indexes_agree [1; 2; 3]%Z [2; 1; 3]%Z eq_refl). Defined.

(** ** Baselines *)

Section BaselineFacts.

Lemma broadcast_shapes_row_column (m n : nat) :
  broadcast_shapes [m] [n; 1] = Some [n; m].
Proof.
  unfold broadcast_shapes. simpl. now rewrite broadcast_dim_1_r.
Qed.

Lemma broadcast_shapes_matrix_column (m n : nat) :
  broadcast_shapes [n; m] [n; 1] = Some [n; m].
Proof.
  unfold broadcast_shapes. simpl.
  now rewrite broadcast_dim_1_r, broadcast_dim_refl.
Qed.

Lemma binop_row_column {A B C : Type} (f : A -> B -> C)
    (a : ndarray A) (b : ndarray B) (m n : nat) :
  shape a = [m] -> shape b = [n; 1] ->
  binop f a b
  = Ret (mk_ndarray [n; m]
           (fun idx => f (item a (bcast_index [m] idx))
                         (item b (bcast_index [n; 1] idx)))).
Proof.
  intros Ha Hb. unfold binop. now rewrite Ha, Hb, broadcast_shapes_row_column.
Qed.

Lemma binop_matrix_column {A B C : Type} (f : A -> B -> C)
    (a : ndarray A) (b : ndarray B) (m n : nat) :
  shape a = [n; m] -> shape b = [n; 1] ->
  binop f a b
  = Ret (mk_ndarray [n; m]
           (fun idx => f (item a (bcast_index [n; m] idx))
                         (item b (bcast_index [n; 1] idx)))).
Proof.
  intros Ha Hb. unfold binop. now rewrite Ha, Hb, broadcast_shapes_matrix_column.
Qed.

Lemma in_bounds_1 (idx : list nat) (n : nat) :
  in_bounds idx [n] = true -> exists j, idx = [j] /\ j < n.
Proof.
  destruct idx as [|j [|k idx]]; simpl; try discriminate.
  - rewrite andb_true_r. intros H. apply Nat.ltb_lt in H. now exists j.
  - rewrite andb_false_r. discriminate.
Qed.

(** One baseline array through [broadcast_and_convert_baselines]: the
    element of channel [i] and visibility [j]. *)
Definition converted (u chan_freq : list float64) (i j : nat) : float64 :=
  fdiv (fmul milli (nth j u NaN)) (fdiv c_value (nth i chan_freq NaN)).

Lemma convert_baselines_channel (u chan_freq : list float64) (i : nat) :
  exists r, convert_baselines (array1 NaN u) (scalar (nth i chan_freq NaN)) = Ret r
            /\ shape r = [List.length u]
            /\ forall j, j < List.length u -> item r [j] = converted u chan_freq i j.
Proof.
  eexists. split; [reflexivity|]. split; [reflexivity|].
  intros j Hj. simpl. unfold converted. now rewrite (clamp_dim Hj).
Qed.

End BaselineFacts.

(** C8: [broadcast_and_convert_baselines(u, v, chan_freq)] returns two
    arrays of shape [(nchan, nvis)], and row [i] of each is
    [convert_baselines] of the corresponding baseline array at the single
    frequency [chan_freq[i]]. *)
Theorem broadcast_and_convert_rows (u v chan_freq : list float64) :
  exists uu vv,
    broadcast_and_convert_baselines u v chan_freq = Ret (uu, vv)
    /\ shape uu = [List.length chan_freq; List.length u]
    /\ shape vv = [List.length chan_freq; List.length v]
    /\ forall i, i < List.length chan_freq ->
         exists ru rv,
           convert_baselines (array1 NaN u) (scalar (nth i chan_freq NaN)) = Ret ru
           /\ convert_baselines (array1 NaN v) (scalar (nth i chan_freq NaN)) = Ret rv
           /\ same_array (row i uu) ru
           /\ same_array (row i vv) rv.
Proof.
  unfold broadcast_and_convert_baselines.
  rewrite (@binop_row_column _ _ _ fmul (array1 NaN u) _
             (List.length u) (List.length chan_freq)) by reflexivity.
  rewrite (@binop_row_column _ _ _ fmul (array1 NaN v) _
             (List.length v) (List.length chan_freq)) by reflexivity.
  cbv beta iota zeta delta [bind].
  rewrite (@binop_matrix_column _ _ _ fdiv _ _
             (List.length u) (List.length chan_freq)) by reflexivity.
  rewrite (@binop_matrix_column _ _ _ fdiv _ _
             (List.length v) (List.length chan_freq)) by reflexivity.
  eexists. eexists. split; [reflexivity|]. split; [reflexivity|].
  split; [reflexivity|].
  intros i Hi.
  destruct (convert_baselines_channel u chan_freq i) as [ru [Hru [Su Iu]]].
  destruct (convert_baselines_channel v chan_freq i) as [rv [Hrv [Sv Iv]]].
  exists ru, rv. split; [exact Hru|]. split; [exact Hrv|].
  split; (split; [simpl; congruence|]); simpl shape; intros idx Hb;
    apply in_bounds_1 in Hb; destruct Hb as [j [-> Hj]];
    rewrite ?Iu, ?Iv by exact Hj; unfold converted; simpl;
    rewrite !(clamp_dim Hj), (clamp_dim Hi), fmul_one_r; reflexivity.
Qed.

(** ** broadcast_weights *)

Lemma broadcast_shapes_front_column (m n : nat) :
  broadcast_shapes [1; m] [n; 1] = Some [n; m].
Proof.
  unfold broadcast_shapes. simpl.
  now rewrite broadcast_dim_1_r, broadcast_dim_1_l.
Qed.

(** C4, as the code has it: for a 1-d array of weights (shape [(nvis,)])
    and a [data_shape] tuple that [chan_axis] indexes, [broadcast_weights]
    returns an array of shape [(nchan, nvis)] with
    [nchan = data_shape[chan_axis]], and every channel row of it is the
    input: no value changes. *)
Theorem broadcast_weights_replicates (weight : ndarray float64)
    (data_shape : list nat) (chan_axis : Z) (nvis nchan : nat) :
  shape weight = [nvis] ->
  getitem data_shape chan_axis = Ret nchan ->
  exists r,
    broadcast_weights weight (PyTuple data_shape) chan_axis = Ret r
    /\ shape r = [nchan; nvis]
    /\ (forall c v, c < nchan -> v < nvis -> item r [c; v] = item weight [v])
    /\ (forall c, c < nchan -> same_array (row c r) weight).
Proof.
  intros Hs Hn. unfold broadcast_weights, subscript. rewrite Hn.
  unfold newaxis_front. rewrite Hs. cbv beta iota zeta delta [bind].
  unfold binop. simpl shape. rewrite broadcast_shapes_front_column.
  eexists. split; [reflexivity|]. split; [reflexivity|].
  assert (Hitem : forall c v, c < nchan -> v < nvis ->
            fmul (item weight (tl (bcast_index [1; nvis] [c; v])))
                 (item (ones [nchan; 1]) (bcast_index [nchan; 1] [c; v]))
            = item weight [v]).
  { intros c v Hc Hv. simpl. now rewrite (clamp_dim Hv), fmul_one_r. }
  split; [exact Hitem|].
  intros c Hc. split; [simpl; now rewrite Hs|].
  simpl shape. intros idx Hb. apply in_bounds_1 in Hb.
  destruct Hb as [v [-> Hv]]. apply (Hitem c v Hc Hv).
Qed.

(** The theorem on three weights and data of shape [(4, 3)]. *)
Lemma broadcast_weights_replicates_witness :
  exists r,
    broadcast_weights (array1 NaN [of_Z 5; of_Z 6; of_Z 7]) (PyTuple [4; 3]) 0 = Ret r
    /\ shape r = [4; 3]
    /\ (forall c v, c < 4 -> v < 3 ->
          item r [c; v] = item (array1 NaN [of_Z 5; of_Z 6; of_Z 7]) [v])
    /\ (forall c, c < 4 -> same_array (row c r) (array1 NaN [of_Z 5; of_Z 6; of_Z 7])).
Proof.
  exact (@broadcast_weights_replicates
           (array1 NaN [of_Z 5; of_Z 6; of_Z 7]) [4; 3] 0%Z 3 4 eq_refl eq_refl).
Defined.

(** C4, the claim as stated fails on a dual-polarization weight array of
    shape [(2, 3)]: with [nchan = 4] the call raises (the shapes
    [(1, 2, 3)] and [(4, 1)] do not broadcast), and with [nchan = 2] it
    returns the shape [(1, 2, 3)], not [(2, 2, 3)]. *)
Lemma broadcast_weights_dual_polarization :
  let weight := array2 NaN [[of_Z 5; of_Z 6; of_Z 7]; [of_Z 1; of_Z 2; of_Z 3]] in
  shape weight = [2; 3]
  /\ broadcast_weights weight (PyTuple [2; 4; 3]) 1 = Raise ValueError
  /\ exists r, broadcast_weights weight (PyTuple [2; 2; 3]) 1 = Ret r
               /\ shape r = [1; 2; 3].
Proof.
  split; [reflexivity|]. split; [reflexivity|].
  eexists. split; reflexivity.
Qed.

(** ** average_data_polarization *)

Section AxisFacts.

Lemma normalize_axis_bound (axis : Z) (n k : nat) :
  normalize_axis axis n = Ret k -> k < n.
Proof.
  unfold normalize_axis.
  destruct ((0 <=? axis)%Z && (axis <? Z.of_nat n)%Z) eqn:E1.
  - intros H. inversion H. apply andb_prop in E1. lia.
  - destruct ((- Z.of_nat n <=? axis)%Z && (axis <? 0)%Z) eqn:E2; [|discriminate].
    intros H. inversion H. apply andb_prop in E2. lia.
Qed.

(** A valid axis indexes the shape tuple, at the same position. *)
Lemma normalize_axis_getitem {A : Type} (t : list A) (axis : Z) (k : nat) (d : A) :
  normalize_axis axis (List.length t) = Ret k -> getitem t axis = Ret (nth k t d).
Proof.
  intros H. pose proof (normalize_axis_bound _ _ H) as Hk.
  unfold normalize_axis in H. unfold getitem.
  destruct ((0 <=? axis)%Z && (axis <? Z.of_nat (List.length t))%Z) eqn:E1.
  - inversion H as [Ek]. apply andb_prop in E1.
    replace (axis <? 0)%Z with false by lia.
    replace ((0 <=? axis)%Z && (axis <? Z.of_nat (List.length t))%Z) with true
      by (symmetry; apply andb_true_intro; split; lia).
    rewrite Ek. destruct (nth_error t k) eqn:En.
    + now rewrite (nth_error_nth _ _ d En).
    + apply nth_error_None in En. lia.
  - destruct ((- Z.of_nat (List.length t) <=? axis)%Z && (axis <? 0)%Z) eqn:E2;
      [|discriminate].
    inversion H as [Ek]. apply andb_prop in E2.
    replace (axis <? 0)%Z with true by lia.
    replace ((0 <=? axis + Z.of_nat (List.length t))%Z
             && (axis + Z.of_nat (List.length t) <? Z.of_nat (List.length t))%Z)
      with true by (symmetry; apply andb_true_intro; split; lia).
    rewrite Ek. destruct (nth_error t k) eqn:En.
    + now rewrite (nth_error_nth _ _ d En).
    + apply nth_error_None in En. lia.
Qed.

(** An invalid axis does not index the shape tuple either. *)
Lemma getitem_normalize_axis {A : Type} (t : list A) (axis : Z) (x : A) :
  getitem t axis = Ret x -> exists k, normalize_axis axis (List.length t) = Ret k.
Proof.
  unfold getitem, normalize_axis.
  destruct (axis <? 0)%Z eqn:E0.
  - destruct ((0 <=? axis + Z.of_nat (List.length t))%Z
              && (axis + Z.of_nat (List.length t) <? Z.of_nat (List.length t))%Z) eqn:E1;
      [|discriminate].
    intros _. apply andb_prop in E1.
    replace ((0 <=? axis)%Z && (axis <? Z.of_nat (List.length t))%Z) with false
      by (symmetry; apply andb_false_iff; left; lia).
    replace (- Z.of_nat (List.length t) <=? axis)%Z with true by lia.
    eexists. reflexivity.
  - destruct ((0 <=? axis)%Z && (axis <? Z.of_nat (List.length t))%Z) eqn:E1;
      [|discriminate].
    intros _. eexists. reflexivity.
Qed.

Lemma in_bounds_insert_at (k p : nat) (idx sh : list nat) :
  k < List.length sh ->
  in_bounds idx (remove_at k sh) = true ->
  p < nth k sh 0 ->
  in_bounds (insert_at k p idx) sh = true.
Proof.
  revert idx sh. induction k as [|k IH]; intros idx [|n sh] Hk Hb Hp;
    simpl in Hk; try lia.
  - unfold insert_at, remove_at in *. simpl in *.
    apply andb_true_intro. split; [now apply Nat.ltb_lt|exact Hb].
  - destruct idx as [|i idx]; [discriminate|].
    change (remove_at (S k) (n :: sh)) with (n :: remove_at k sh) in Hb.
    change (insert_at (S k) p (i :: idx)) with (i :: insert_at k p idx).
    simpl in Hb |- *. apply andb_prop in Hb. destruct Hb as [Hi Hb].
    rewrite Hi. simpl. apply IH; [lia|exact Hb|exact Hp].
Qed.

(** The reduction of an axis of length 2. *)
Lemma reduce_pair {A : Type} (op : A -> A -> A) (unit : A) (a : ndarray A)
    (axis : Z) (k : nat) :
  normalize_axis axis (ndim a) = Ret k ->
  nth k (shape a) 0 = 2 ->
  reduce op unit a axis
  = Ret (mk_ndarray (remove_at k (shape a))
           (fun idx => op (item a (insert_at k 0 idx)) (item a (insert_at k 1 idx)))).
Proof.
  intros Hk H2. unfold reduce. rewrite Hk.
  cbv beta iota delta [bind]. rewrite H2.
  destruct (shape a); [destruct k; discriminate|reflexivity].
Qed.

End AxisFacts.

Section PolarizationFacts.

(** Weights of the shape of the data, any polarization axis. *)
Lemma average_data_same_shape (data : ndarray complex) (weight : ndarray float64)
    (axis : Z) (k : nat) :
  shape weight = shape data ->
  normalize_axis axis (ndim data) = Ret k ->
  nth k (shape data) 0 = 2 ->
  exists r,
    average_data_polarization data weight axis = Ret r
    /\ shape r = remove_at k (shape data)
    /\ forall idx, in_bounds idx (shape r) = true ->
         item r idx
         = weighted_mean2 (item data (insert_at k 0 idx)) (item weight (insert_at k 0 idx))
                          (item data (insert_at k 1 idx)) (item weight (insert_at k 1 idx)).
Proof.
  intros Hw Hk H2.
  pose proof (normalize_axis_bound _ _ Hk) as Hlt. unfold ndim in Hlt.
  unfold average_data_polarization.
  rewrite (normalize_axis_getitem (shape data) axis 0 Hk), H2.
  cbv beta iota delta [bind assert]. change (2 =? 2) with true.
  cbv beta iota.
  unfold average_weight_polarization, np_sum.
  assert (Hkw : normalize_axis axis (ndim weight) = Ret k)
    by (unfold ndim; rewrite Hw; exact Hk).
  rewrite (reduce_pair fadd zero weight axis Hkw) by (rewrite Hw; exact H2).
  cbv beta iota delta [bind].
  replace (ndim data =? ndim weight) with true
    by (unfold ndim; rewrite Hw; symmetry; apply Nat.eqb_refl).
  destruct (binop_same_shape cmul_real data weight (eq_sym Hw)) as [prod [Hp [Sp Ip]]].
  rewrite Hp. cbv beta iota delta [bind]. unfold np_csum.
  assert (Hkp : normalize_axis axis (ndim prod) = Ret k)
    by (unfold ndim; rewrite Sp; exact Hk).
  rewrite (reduce_pair cadd (of_float zero) prod axis Hkp) by (rewrite Sp; exact H2).
  cbv beta iota delta [bind].
  match goal with
  | |- exists r, binop cdiv_real ?t ?n = _ /\ _ =>
      destruct (binop_same_shape cdiv_real t n) as [r [Hr [Sr Ir]]];
        [simpl; now rewrite Sp, Hw|]
  end.
  exists r. split; [exact Hr|]. simpl in Sr. rewrite Sp in Sr.
  split; [exact Sr|].
  intros idx Hb. rewrite Sr in Hb.
  rewrite Ir by (simpl; rewrite Sp; exact Hb). simpl.
  rewrite !Ip by (apply in_bounds_insert_at; [exact Hlt|exact Hb|rewrite H2; lia]).
  reflexivity.
Qed.

Lemma broadcast_shapes_channel_inserted (nchan nvis : nat) :
  broadcast_shapes [2; nchan; nvis] [2; 1; nvis] = Some [2; nchan; nvis].
Proof.
  unfold broadcast_shapes. simpl.
  now rewrite broadcast_dim_refl, broadcast_dim_1_r.
Qed.

Lemma broadcast_shapes_matrix_row (nchan nvis : nat) :
  broadcast_shapes [nchan; nvis] [nvis] = Some [nchan; nvis].
Proof.
  unfold broadcast_shapes. simpl. now rewrite broadcast_dim_refl.
Qed.

(** Channelized data [(2, nchan, nvis)] with weights [(2, nvis)]. *)
Lemma average_data_channelized (data : ndarray complex) (weight : ndarray float64)
    (nchan nvis : nat) :
  shape data = [2; nchan; nvis] ->
  shape weight = [2; nvis] ->
  exists r,
    average_data_polarization data weight 0 = Ret r
    /\ shape r = [nchan; nvis]
    /\ forall c v, c < nchan -> v < nvis ->
         item r [c; v]
         = weighted_mean2 (item data [0; c; v]) (item weight [0; v])
                          (item data [1; c; v]) (item weight [1; v]).
Proof.
  intros Hd Hw. unfold average_data_polarization.
  rewrite Hd. cbv beta iota delta [bind assert Nat.eqb getitem].
  simpl.
  unfold average_weight_polarization, np_sum, reduce, ndim. rewrite !Hw, Hd.
  simpl. unfold newaxis_middle, ndim. rewrite Hw. simpl.
  unfold binop at 1. simpl shape. rewrite Hd.
  change (insert_at 1 1 [2; nvis]) with [2; 1; nvis].
  rewrite broadcast_shapes_channel_inserted.
  unfold np_csum, reduce, ndim. simpl.
  unfold binop. simpl shape.
  change (remove_at 0 [2; nchan; nvis]) with [nchan; nvis].
  change (remove_at 0 [2; nvis]) with [nvis].
  rewrite broadcast_shapes_matrix_row.
  eexists. split; [reflexivity|]. split; [reflexivity|].
  intros c v Hc Hv. simpl. unfold bcast_index, insert_at, remove_at. simpl.
  rewrite !(clamp_dim Hv), !(clamp_dim Hc). reflexivity.
Qed.

End PolarizationFacts.

Section AxisOutcomes.

Lemma normalize_axis_in (axis : Z) (n : nat) :
  axis_in axis n -> exists k, normalize_axis axis n = Ret k.
Proof.
  unfold axis_in, normalize_axis. intros H.
  destruct ((0 <=? axis)%Z && (axis <? Z.of_nat n)%Z) eqn:E1;
    [eexists; reflexivity|].
  replace ((- Z.of_nat n <=? axis)%Z && (axis <? 0)%Z) with true;
    [eexists; reflexivity|].
  symmetry. apply andb_true_intro. apply andb_false_iff in E1. split; lia.
Qed.

Lemma normalize_axis_out (axis : Z) (n : nat) :
  ~ axis_in axis n -> normalize_axis axis n = Raise AxisError.
Proof.
  unfold axis_in, normalize_axis. intros H.
  replace ((0 <=? axis)%Z && (axis <? Z.of_nat n)%Z) with false
    by (symmetry; apply andb_false_iff; lia).
  replace ((- Z.of_nat n <=? axis)%Z && (axis <? 0)%Z) with false
    by (symmetry; apply andb_false_iff; lia).
  reflexivity.
Qed.

Lemma getitem_in {A : Type} (t : list A) (axis : Z) :
  axis_in axis (List.length t) -> exists x, getitem t axis = Ret x.
Proof.
  intros H. destruct t as [|d t]; [unfold axis_in in H; simpl in H; lia|].
  destruct (normalize_axis_in H) as [k Hk].
  eexists. apply (normalize_axis_getitem _ _ d Hk).
Qed.

Lemma getitem_out {A : Type} (t : list A) (axis : Z) :
  ~ axis_in axis (List.length t) -> getitem t axis = Raise IndexError.
Proof.
  intros H. destruct (getitem t axis) as [x|e] eqn:E.
  - exfalso. apply H. destruct (getitem_normalize_axis _ _ E) as [k Hk].
    pose proof (normalize_axis_bound _ _ Hk) as Hlt.
    unfold axis_in. unfold normalize_axis in Hk.
    destruct ((0 <=? axis)%Z && (axis <? Z.of_nat (List.length t))%Z) eqn:E1.
    + apply andb_prop in E1. lia.
    + destruct ((- Z.of_nat (List.length t) <=? axis)%Z && (axis <? 0)%Z) eqn:E2;
        [|discriminate].
      apply andb_prop in E2. lia.
  - unfold getitem in E.
    destruct ((0 <=? (if (axis <? 0)%Z then (axis + Z.of_nat (List.length t))%Z else axis))%Z
              && ((if (axis <? 0)%Z then (axis + Z.of_nat (List.length t))%Z else axis)
                  <? Z.of_nat (List.length t))%Z);
      [|congruence].
    destruct (nth_error t _); congruence.
Qed.

(** The outcome of a reduction, by the axis. *)
Lemma reduce_reducible {A : Type} (op : A -> A -> A) (unit : A)
    (a : ndarray A) (axis : Z) :
  reducible axis (shape a) -> exists r, reduce op unit a axis = Ret r.
Proof.
  unfold reducible, reduce. intros [H | [E [-> | ->]]].
  - destruct (shape a) eqn:Es; [unfold axis_in in H; simpl in H; lia|].
    unfold ndim. rewrite Es. destruct (normalize_axis_in H) as [k Hk].
    rewrite Hk. eexists. reflexivity.
  - rewrite E. eexists. reflexivity.
  - rewrite E. eexists. reflexivity.
Qed.

Lemma reduce_not_reducible {A : Type} (op : A -> A -> A) (unit : A)
    (a : ndarray A) (axis : Z) :
  ~ reducible axis (shape a) -> reduce op unit a axis = Raise AxisError.
Proof.
  unfold reducible, reduce. intros H.
  destruct (shape a) eqn:Es.
  - destruct ((axis =? 0)%Z || (axis =? -1)%Z) eqn:E; [|reflexivity].
    exfalso. apply H. right. split; [reflexivity|].
    apply orb_prop in E. destruct E as [E | E]; apply Z.eqb_eq in E; tauto.
  - unfold ndim. rewrite Es, normalize_axis_out; [reflexivity|tauto].
Qed.

End AxisOutcomes.

Section MeanFacts.





Local Open Scope Qc_scope.


End MeanFacts.



(** Where the componentwise reading stops: for the data [inf + 1j] and
    [0j] with weights 1 and 1, numpy's complex product gives
    [inf + nan j] and its quotient [nan + nan j]. *)
Example average_data_polarization_infinite :
  exists r,
    average_data_polarization
      (array2 (of_float NaN) [[mk_complex PInf (of_Z 1)]; [of_float (of_Z 0)]])
      (array2 NaN [[of_Z 1]; [of_Z 1]]) 0 = Ret r
    /\ tolist1 r = [mk_complex NaN NaN].
Proof. eexists. split; [reflexivity|]. vm_compute. reflexivity. Qed.

(** C6, as the code has it: a data/weight pair whose ranks are not one of
    the two recognized combinations never gets a result, and the first
    failing step decides the error: [IndexError] when the data have no such
    polarization axis, the assertion when their length along it is not 2,
    [AxisError] when numpy cannot sum the weights along the axis (the
    weights lack it, and are not a 0-d array summed along 0 or -1), and in
    every other case the [RuntimeError] whose message holds both shapes. *)
Theorem average_data_polarization_unrecognized (data : ndarray complex)
    (weight : ndarray float64) (axis : Z) :
  ndim data <> ndim weight ->
  ~ (ndim data = 3 /\ ndim weight = 2) ->
  raises (average_data_polarization data weight axis) = true
  /\ (~ axis_in axis (ndim data) ->
      average_data_polarization data weight axis = Raise IndexError)
  /\ (axis_in axis (ndim data) ->
      exists n, getitem (shape data) axis = Ret n)
  /\ (forall n, getitem (shape data) axis = Ret n -> n <> 2 ->
      average_data_polarization data weight axis
      = Raise (AssertionError "Not recognized as a dual-polarization dataset"))
  /\ (getitem (shape data) axis = Ret 2 ->
      ~ reducible axis (shape weight) ->
      average_data_polarization data weight axis = Raise AxisError)
  /\ (getitem (shape data) axis = Ret 2 ->
      reducible axis (shape weight) ->
      average_data_polarization data weight axis
      = Raise (RuntimeError (shape_message (shape data) (shape weight))))
  /\ shape_message (shape data) (shape weight)
     = ("I don't know what to do with provided data and weight arrays with shapes "
          ++ str_tuple (shape data) ++ " and " ++ str_tuple (shape weight)
          ++ ", respectively")%string.
Proof.
  intros Hne Hno.
  assert (E1 : (ndim data =? ndim weight) = false) by (now apply Nat.eqb_neq).
  assert (E2 : (ndim data =? 3) && (ndim weight =? 2) = false).
  { destruct (ndim data =? 3) eqn:Ea; [|reflexivity].
    destruct (ndim weight =? 2) eqn:Eb; [|reflexivity].
    apply Nat.eqb_eq in Ea, Eb. tauto. }
  unfold average_data_polarization. rewrite E1, E2.
  split; [|split; [|split; [|split; [|split; [|split; [|reflexivity]]]]]].
  - destruct (getitem (shape data) axis) as [npol|e]; [|reflexivity]. simpl.
    destruct (assert (npol =? 2) _) as [u|e]; [|reflexivity]. simpl.
    destruct (average_weight_polarization weight axis) as [norm|e]; reflexivity.
  - intros Hout. unfold ndim in Hout. now rewrite (getitem_out _ Hout).
  - intros Hin. now apply getitem_in.
  - intros n Hg Hn. rewrite Hg. simpl.
    replace (n =? 2) with false by (symmetry; now apply Nat.eqb_neq).
    reflexivity.
  - intros Hg Hr. rewrite Hg. simpl.
    unfold average_weight_polarization, np_sum.
    now rewrite (reduce_not_reducible _ _ _ Hr).
  - intros Hg Hr. rewrite Hg. simpl.
    unfold average_weight_polarization, np_sum.
    destruct (reduce_reducible fadd zero weight Hr) as [norm Hnorm].
    now rewrite Hnorm.
Qed.

(** The theorem on data of shape [(2, 1)] and weights of shape [(2,)]. *)
Lemma average_data_polarization_unrecognized_witness :
  let data := array2 (of_float NaN) [[of_float (of_Z 1)]; [of_float (of_Z 3)]] in
  let weight := array1 NaN [of_Z 1; of_Z 1] in
  raises (average_data_polarization data weight 0) = true
  /\ (~ axis_in 0 (ndim data) ->
      average_data_polarization data weight 0 = Raise IndexError)
  /\ (axis_in 0 (ndim data) ->
      exists n, getitem (shape data) 0 = Ret n)
  /\ (forall n, getitem (shape data) 0 = Ret n -> n <> 2 ->
      average_data_polarization data weight 0
      = Raise (AssertionError "Not recognized as a dual-polarization dataset"))
  /\ (getitem (shape data) 0 = Ret 2 ->
      ~ reducible 0 (shape weight) ->
      average_data_polarization data weight 0 = Raise AxisError)
  /\ (getitem (shape data) 0 = Ret 2 ->
      reducible 0 (shape weight) ->
      average_data_polarization data weight 0
      = Raise (RuntimeError (shape_message (shape data) (shape weight))))
  /\ shape_message (shape data) (shape weight)
     = ("I don't know what to do with provided data and weight arrays with shapes "
          ++ str_tuple (shape data) ++ " and " ++ str_tuple (shape weight)
          ++ ", respectively")%string.
Proof.
  apply average_data_polarization_unrecognized.
  - simpl. discriminate.
  - simpl. intros [H _]. discriminate.
Defined.

(** C6, the claim as stated fails: for data of shape [(4, 2)], polarization
    axis 1 and a weight array of shape [(2,)] the ranks are not a
    recognized combination, and the error is the one of summing the
    weights along an axis they do not have, which names no shape. *)
Lemma average_data_polarization_axis_error :
  let data := array2 (of_float NaN)
                [[of_float (of_Z 1); of_float (of_Z 2)];
                 [of_float (of_Z 3); of_float (of_Z 4)];
                 [of_float (of_Z 5); of_float (of_Z 6)];
                 [of_float (of_Z 7); of_float (of_Z 8)]] in
  let weight := array1 NaN [of_Z 1; of_Z 1] in
  ndim data = 2 /\ ndim weight = 1
  /\ getitem (shape data) 1 = Ret 2
  /\ average_data_polarization data weight 1 = Raise AxisError.
Proof. repeat split. Qed.

(** The four outcomes on unrecognized ranks: a 0-d weight summed along
    axis 0 reaches the shape error, data without the axis stop at the
    index, data of three polarizations at the assertion. *)
Example average_data_polarization_outcomes :
  average_data_polarization
    (array1 (of_float NaN) [of_float (of_Z 1); of_float (of_Z 2)])
    (scalar (of_Z 1)) 0
  = Raise (RuntimeError
      "I don't know what to do with provided data and weight arrays with shapes (2,) and (), respectively")
  /\ average_data_polarization
       (array1 (of_float NaN) [of_float (of_Z 1); of_float (of_Z 2)])
       (scalar (of_Z 1)) 1
     = Raise IndexError
  /\ average_data_polarization
       (array1 (of_float NaN)
          [of_float (of_Z 1); of_float (of_Z 2); of_float (of_Z 3)])
       (scalar (of_Z 1)) 0
     = Raise (AssertionError "Not recognized as a dual-polarization dataset").
Proof. repeat split. Qed.

(** ** Channel order *)

Section ChannelFacts.

Lemma increasing_rev_decreasing (l : list float64) :
  increasing l -> decreasing (rev l).
Proof.
  intros H i Hi. rewrite length_rev in Hi.
  rewrite !rev_nth by lia.
  replace (List.length l - S i) with (S (List.length l - S (S i))) by lia.
  apply H. lia.
Qed.

Lemma increasing_not_decreasing (l : list float64) :
  1 < List.length l -> increasing l -> decreasing l -> False.
Proof.
  intros Hl Hi Hd. specialize (Hi 0 Hl). specialize (Hd 0 Hl).
  apply fltb_asym in Hi. congruence.
Qed.

Lemma flip_axis1_channelized {A : Type} (nchan : nat) (a : ndarray A) :
  channelized nchan a ->
  exists b, flip_axis1 a = Ret b
            /\ channels_mapped (fun c => nchan - 1 - c) nchan a b.
Proof.
  intros [H3 Hn]. unfold flip_axis1.
  replace (ndim a <? 3) with false by (symmetry; apply Nat.ltb_ge; exact H3).
  eexists. split; [reflexivity|]. split; [reflexivity|].
  intros p c rest Hc. simpl. now rewrite Hn.
Qed.

Lemma channels_mapped_id {A : Type} (nchan : nat) (a : ndarray A) :
  channels_mapped (fun c => c) nchan a a.
Proof. split; reflexivity. Qed.

End ChannelFacts.

(** C3: for a strictly monotonic frequency array with more than one channel
    and data, model data and flags channelized on axis 1,
    [get_channel_sorted_data] returns strictly decreasing frequencies; the
    four arrays are read through one channel map, so that channel [c] of
    each returned array is the input channel of the returned frequency
    [c]; and when the input frequencies are increasing that map is the
    reversal of the channel axis for all four. *)
Theorem get_channel_sorted_data_canonical (g : Globals) (filename : string)
    (datadescid : Z) (get_channels : string -> Z -> result (list float64))
    (query_datadescid : string -> Z -> result Query.t)
    (chan_freq : list float64) (query : Query.t) (nchan : nat) :
  g_get_channels g = Some get_channels ->
  get_channels filename datadescid = Ret chan_freq ->
  g_query_datadescid g = Some query_datadescid ->
  query_datadescid filename datadescid = Ret query ->
  List.length chan_freq = nchan ->
  1 < nchan ->
  channelized nchan (Query.data query) ->
  channelized nchan (Query.model_data query) ->
  channelized nchan (Query.flag query) ->
  increasing chan_freq \/ decreasing chan_freq ->
  exists freq data model_data flag sigma,
    get_channel_sorted_data g filename datadescid
    = Ret (freq, data, model_data, flag)
    /\ decreasing freq
    /\ List.length freq = nchan
    /\ (forall c, c < nchan ->
          sigma c < nchan /\ nth c freq NaN = nth (sigma c) chan_freq NaN)
    /\ channels_mapped sigma nchan (Query.data query) data
    /\ channels_mapped sigma nchan (Query.model_data query) model_data
    /\ channels_mapped sigma nchan (Query.flag query) flag
    /\ (increasing chan_freq ->
          freq = rev chan_freq /\ forall c, sigma c = nchan - 1 - c).
Proof.
  intros Hgc Hc Hgq Hq Hlen Hn Hd Hm Hf Hmono.
  unfold get_channel_sorted_data. rewrite Hgc, Hgq. simpl. rewrite Hc, Hq. simpl.
  replace (1 <? List.length chan_freq) with true
    by (symmetry; apply Nat.ltb_lt; lia).
  simpl andb.
  destruct Hmono as [Hinc | Hdec].
  - rewrite (Hinc 0) by lia.
    destruct (flip_axis1_channelized Hd) as [data [Ed Md]].
    destruct (flip_axis1_channelized Hm) as [model [Em Mm]].
    destruct (flip_axis1_channelized Hf) as [flag [Ef Mf]].
    rewrite Ed, Em, Ef. simpl.
    exists (rev chan_freq), data, model, flag, (fun c => nchan - 1 - c).
    split; [reflexivity|].
    split; [now apply increasing_rev_decreasing|].
    split; [now rewrite length_rev|].
    split.
    { intros c Hlt. split; [lia|]. rewrite rev_nth by lia.
      f_equal. lia. }
    repeat (split; [assumption|]).
    intros _. split; reflexivity.
  - assert (E : fltb (nth 0 chan_freq NaN) (nth 1 chan_freq NaN) = false)
      by (apply fltb_asym, (Hdec 0); lia).
    rewrite E.
    exists chan_freq, (Query.data query), (Query.model_data query),
      (Query.flag query), (fun c => c).
    split; [reflexivity|]. split; [exact Hdec|]. split; [exact Hlen|].
    split; [intros c Hlt; split; [exact Hlt|reflexivity]|].
    repeat (split; [apply channels_mapped_id|]).
    intros Hinc. exfalso.
    apply (@increasing_not_decreasing chan_freq); [lia|exact Hinc|exact Hdec].
Qed.

(** The theorem on the synthetic window, whose two frequencies increase. *)
Lemma get_channel_sorted_data_canonical_witness :
  exists freq data model_data flag sigma,
    get_channel_sorted_data Synthetic.globals "synthetic.ms" 0
    = Ret (freq, data, model_data, flag)
    /\ decreasing freq
    /\ List.length freq = 2
    /\ (forall c, c < 2 ->
          sigma c < 2 /\ nth c freq NaN = nth (sigma c) Synthetic.chan_freq NaN)
    /\ channels_mapped sigma 2 (Query.data Synthetic.query) data
    /\ channels_mapped sigma 2 (Query.model_data Synthetic.query) model_data
    /\ channels_mapped sigma 2 (Query.flag Synthetic.query) flag
    /\ (increasing Synthetic.chan_freq ->
          freq = rev Synthetic.chan_freq /\ forall c, sigma c = 2 - 1 - c).
Proof.
  apply (@get_channel_sorted_data_canonical Synthetic.globals "synthetic.ms" 0%Z
           Synthetic.get_channels Synthetic.query_datadescid
           Synthetic.chan_freq Synthetic.query 2);
    try reflexivity.
  - lia.
  - split; [vm_compute; lia|reflexivity].
  - split; [vm_compute; lia|reflexivity].
  - split; [vm_compute; lia|reflexivity].
  - left. intros [|i] Hi; [reflexivity|].
    unfold Synthetic.chan_freq in Hi. simpl in Hi. lia.
Defined.

(** ** The pipeline *)

(** An int where the shape tuple is expected cannot be subscripted. *)
Lemma broadcast_weights_int (weight : ndarray float64) (nchan : nat) (chan_axis : Z) :
  broadcast_weights weight (PyInt nchan) chan_axis = Raise TypeError.
Proof. reflexivity. Qed.

(** Whatever the environment binds and whatever the reader returns, the
    pipeline stops with an exception no later than [broadcast_weights]. *)
Lemma get_processed_visibilities_never_returns (g : Globals) (filename : string)
    (datadescid : Z) (sigma_rescale : float64) (model_data : bool) :
  raises (get_processed_visibilities g filename datadescid sigma_rescale model_data)
  = true.
Proof.
  unfold get_processed_visibilities.
  destruct (get_channel_sorted_data g filename datadescid)
    as [[[[chan_freq data] model] flag]|e]; [|reflexivity].
  simpl.
  destruct (global "query_datadescid" (g_query_datadescid g)) as [qd|e];
    [|reflexivity].
  simpl. destruct (qd filename datadescid) as [query|e]; [|reflexivity].
  simpl. destruct (Query.uvw query) as [[uu vv] ww].
  destruct (global "broadcast_baselines" (g_broadcast_baselines g)) as [bb|e];
    [|reflexivity].
  simpl. destruct (bb uu vv chan_freq) as [[uu' vv']|e]; reflexivity.
Qed.

(** C1 (the code departs from it): [get_processed_visibilities] does not
    return the mapping.  In the module as shipped the first call,
    [get_channels], is an unbound name; with the five missing names bound,
    on the synthetic window (two increasing channels, two polarizations,
    three baselines of which one autocorrelation), the call
    [broadcast_weights(weight, nchan)] passes the int [nchan] where the
    function subscripts a shape tuple, and raises; and no environment and
    no window make the function return. *)
Theorem get_processed_visibilities_raises :
  get_processed_visibilities module_globals "synthetic.ms" 0 one false
  = Raise (NameError "get_channels")
  /\ get_processed_visibilities Synthetic.globals "synthetic.ms" 0 one false
     = Raise TypeError
  /\ forall g filename datadescid sigma_rescale model_data,
       raises (get_processed_visibilities g filename datadescid sigma_rescale
                 model_data) = true.
Proof.
  split; [reflexivity|]. split; [reflexivity|].
  exact get_processed_visibilities_never_returns.
Qed.

(* ------------------------------------------------------------------ *)
(** * Worked examples *)

Ltac float_list :=
  repeat match goal with
         | |- _ :: _ = _ :: _ => f_equal
         | |- @eq float64 _ _ => apply feqb_eq; vm_compute; reflexivity
         | |- @eq complex _ _ => apply ceqb_eq; vm_compute; reflexivity
         end.

(** [rescale_weights(np.array([1.0, 2.0]), 2.0)] is [[0.25, 0.5]]. *)
Example rescale_weights_by_two :
  exists a, rescale_weights (NpArray (array1 NaN [of_Z 1; of_Z 2])) (of_Z 2)
            = Ret (NpArray a)
            /\ tolist1 a = [of_Q (1 # 4); of_Q (1 # 2)].
Proof. eexists. split; [reflexivity|]. unfold tolist1. simpl. float_list. Qed.

(** The weights [[1.0, 3.0]] of two polarizations sum to [4.0]; a sample
    is flagged when either polarization is. *)
Example average_weight_polarization_sum :
  exists a, average_weight_polarization (array2 NaN [[of_Z 1]; [of_Z 3]]) 0 = Ret a
            /\ tolist1 a = [of_Z 4].
Proof. eexists. split; [reflexivity|]. unfold tolist1. simpl. float_list. Qed.

Example average_flag_polarization_or :
  exists a, average_flag_polarization
              (array2 false [[true; false; true; false]; [false; false; true; true]]) 0
            = Ret a
            /\ tolist1 a = [true; false; true; true].
Proof. eexists. split; reflexivity. Qed.

(** The synthetic window through the polarization average: data of shape
    [(2, 2, 3)] with weights of shape [(2, 3)]. *)
Example average_data_synthetic :
  exists r,
    average_data_polarization (Query.data Synthetic.query)
      (Query.weight Synthetic.query) 0 = Ret r
    /\ shape r = [2; 3]
    /\ item r [1; 2] = mk_complex (of_Z 6) (of_Q (-1 # 2)).
Proof.
  destruct (@average_data_channelized (Query.data Synthetic.query)
              (Query.weight Synthetic.query) 2 3 eq_refl eq_refl) as [r [Hr [Hs Hi]]].
  exists r. split; [exact Hr|]. split; [exact Hs|].
  rewrite Hi by lia. apply ceqb_eq. vm_compute. reflexivity.
Qed.

(** The polarization axis counted from the end: [axis = -2] on arrays of
    shape [(2, 1)]. *)
Example average_data_negative_axis :
  exists r,
    average_data_polarization
      (array2 (of_float NaN) [[of_float (of_Z 1)]; [of_float (of_Z 3)]])
      (array2 NaN [[of_Z 1]; [of_Z 3]]) (-2) = Ret r
    /\ shape r = [1]
    /\ item r [0] = of_float (of_Q (5 # 2)).
Proof.
  destruct (@average_data_same_shape
              (array2 (of_float NaN) [[of_float (of_Z 1)]; [of_float (of_Z 3)]])
              (array2 NaN [[of_Z 1]; [of_Z 3]]) (-2)%Z 0 eq_refl eq_refl eq_refl)
    as [r [Hr [Hs Hi]]].
  exists r. split; [exact Hr|]. split; [exact Hs|].
  rewrite Hi by (rewrite Hs; reflexivity). apply ceqb_eq. vm_compute. reflexivity.
Qed.

(** The message of the shape error, for data of shape [(2, 1)] and weights
    of shape [(2,)]. *)
Example average_data_polarization_message :
  average_data_polarization
    (array2 (of_float NaN) [[of_float (of_Z 1)]; [of_float (of_Z 3)]])
    (array1 NaN [of_Z 1; of_Z 1]) 0
  = Raise (RuntimeError
      "I don't know what to do with provided data and weight arrays with shapes (2, 1) and (2,), respectively").
Proof. reflexivity. Qed.

(** Data that are not dual-polarization stop at the assertion. *)
Example average_data_polarization_assertion :
  average_data_polarization
    (array1 (of_float NaN) [of_float (of_Z 1); of_float (of_Z 2); of_float (of_Z 3)])
    (array1 NaN [of_Z 1; of_Z 1; of_Z 1]) 0
  = Raise (AssertionError "Not recognized as a dual-polarization dataset").
Proof. reflexivity. Qed.

(** The cross-correlation filter on the examples of the specification. *)
Example contains_autocorrelations_examples :
  contains_autocorrelations [1; 2; 3]%Z [1; 2; 4]%Z = Ret true
  /\ contains_autocorrelations [1; 2]%Z [3; 4]%Z = Ret false
  /\ get_crosscorrelation_indexes [1; 2; 3]%Z [2; 1; 3]%Z = Ret [0; 1]
  /\ get_crosscorrelation_indexes (Query.antenna1 Synthetic.query)
       (Query.antenna2 Synthetic.query) = Ret [0; 2].
Proof. repeat split. Qed.

(** A baseline of 1000 m at 1 GHz is 1e9 / 299792458 kilolambda
    (about 3.336). *)
Example convert_baselines_kilolambda :
  exists r, convert_baselines (scalar (of_Z 1000)) (scalar (of_Z 1000000000)) = Ret r
            /\ shape r = []
            /\ item r [] = of_Q (1000000000 # 299792458).
Proof.
  eexists. split; [reflexivity|]. split; [reflexivity|].
  apply feqb_eq. vm_compute. reflexivity.
Qed.

Lemma in_bounds_nth (k : nat) (idx sh : list nat) :
  k < List.length sh -> in_bounds idx sh = true -> nth k idx 0 < nth k sh 0.
Proof.
  revert idx sh. induction k as [|k IH]; intros [|i idx] [|n sh] Hlt Hb;
    simpl in *; try lia; try discriminate;
    apply andb_prop in Hb; destruct Hb as [Hi Hb].
  - now apply Nat.ltb_lt.
  - apply IH; [lia|exact Hb].
Qed.

(** The index that [np.flip] reads, taken twice, is the index itself. *)
Lemma flip_index_twice (k n : nat) (idx : list nat) :
  k < List.length idx -> nth k idx 0 < n ->
  firstn k (firstn k idx ++ (n - 1 - nth k idx 0) :: skipn (S k) idx)
    ++ (n - 1 - nth k (firstn k idx ++ (n - 1 - nth k idx 0) :: skipn (S k) idx) 0)
    :: skipn (S k) (firstn k idx ++ (n - 1 - nth k idx 0) :: skipn (S k) idx)
  = idx.
Proof.
  revert idx. induction k as [|k IH]; intros [|i idx] Hlt Hn; simpl in *; try lia.
  - f_equal. lia.
  - f_equal. apply IH; [lia|exact Hn].
Qed.

(** X7: reversing an array twice along an axis it has gives the array
    back. *)
Lemma reverse_array_involutive {A : Type} (a : ndarray A) (axis : Z) (k : nat) :
  normalize_axis axis (ndim a) = Ret k ->
  exists b c, reverse_array a axis = Ret b
              /\ reverse_array b axis = Ret c
              /\ same_array c a.
Proof.
  intros Hk. pose proof (normalize_axis_bound _ _ Hk) as Hlt. unfold ndim in Hlt.
  unfold reverse_array, flip. rewrite Hk. simpl.
  eexists. eexists. split; [reflexivity|].
  unfold ndim. simpl shape. fold (ndim a). rewrite Hk. simpl.
  split; [reflexivity|]. split; [reflexivity|].
  simpl. intros idx Hb. f_equal.
  apply flip_index_twice.
  - rewrite (in_bounds_length _ _ Hb). exact Hlt.
  - now apply in_bounds_nth.
Qed.

(* ------------------------------------------------------------------ *)
(** * Further properties of the module *)

(** ** The order test and the order of the elements *)

Section OrderFacts.

Local Open Scope Qc_scope.

Lemma Qc_sub_neg (a b : Qc) : a + - b < 0 <-> a < b.
Proof.
  rewrite (Qclt_minus_iff (a + - b) 0), (Qclt_minus_iff a b).
  replace (0 + - (a + - b)) with (b + - a) by ring. reflexivity.
Qed.

Lemma Qc_sub_pos (a b : Qc) : 0 < a + - b <-> b < a.
Proof. symmetry. apply Qclt_minus_iff. Qed.

Lemma fltb_fin (a b : Qc) : fltb (Fin a) (Fin b) = true <-> a < b.
Proof.
  unfold fltb. rewrite Qclt_alt. destruct (a ?= b); split; congruence.
Qed.

(** The sign of a difference is the order of its operands. *)
Lemma fltb_fsub_neg (x y : float64) : fltb (fsub y x) zero = fltb y x.
Proof.
  destruct x as [a| | |], y as [b| | |]; try reflexivity.
  apply eq_true_iff_eq. unfold fsub, fneg, fadd, zero, of_Z.
  change (Q2Qc (inject_Z 0)) with 0.
  rewrite !fltb_fin. apply Qc_sub_neg.
Qed.

Lemma fltb_fsub_pos (x y : float64) : fltb zero (fsub y x) = fltb x y.
Proof.
  destruct x as [a| | |], y as [b| | |]; try reflexivity.
  apply eq_true_iff_eq. unfold fsub, fneg, fadd, zero, of_Z.
  change (Q2Qc (inject_Z 0)) with 0.
  rewrite !fltb_fin. apply Qc_sub_pos.
Qed.

End OrderFacts.

Lemma all_negative_decreasing (l : list float64) :
  all_negative (diff l) <-> decreasing l.
Proof.
  unfold all_negative, decreasing. rewrite Forall_nth. split.
  - intros H i Hi. specialize (H i NaN).
    rewrite diff_length, diff_nth, fltb_fsub_neg in H by lia. apply H. lia.
  - intros H i d Hi. rewrite diff_length in Hi.
    rewrite (nth_indep _ d NaN) by (rewrite diff_length; exact Hi).
    rewrite diff_nth, fltb_fsub_neg by lia. apply H. lia.
Qed.

Lemma all_positive_increasing (l : list float64) :
  all_positive (diff l) <-> increasing l.
Proof.
  unfold all_positive, increasing. rewrite Forall_nth. split.
  - intros H i Hi. specialize (H i NaN).
    rewrite diff_length, diff_nth, fltb_fsub_pos in H by lia. apply H. lia.
  - intros H i d Hi. rewrite diff_length in Hi.
    rewrite (nth_indep _ d NaN) by (rewrite diff_length; exact Hi).
    rewrite diff_nth, fltb_fsub_pos by lia. apply H. lia.
Qed.

(** The three outcomes of [isdecreasing], by the signs of the differences. *)
Lemma isdecreasing_outcome (l : list float64) :
  (all_negative (diff l) /\ isdecreasing l = Ret true)
  \/ (~ all_negative (diff l) /\ all_positive (diff l) /\ 2 <= List.length l
      /\ isdecreasing l = Ret false)
  \/ (~ all_negative (diff l) /\ ~ all_positive (diff l) /\ 2 <= List.length l
      /\ raises (isdecreasing l) = true).
Proof.
  unfold isdecreasing. cbv zeta.
  assert (Hn : forallb (fun d => fltb d zero) (diff l) = true
               <-> all_negative (diff l)) by apply forallb_Forall_true.
  assert (Hp : forallb (fun d => fltb zero d) (diff l) = true
               <-> all_positive (diff l)) by apply forallb_Forall_true.
  assert (Hshort : List.length l <= 1 -> all_negative (diff l)).
  { intros H. destruct l as [|x [|y l]]; simpl in H; try lia; constructor. }
  destruct (forallb (fun d => fltb d zero) (diff l)) eqn:En.
  - left. split; [now apply Hn|]. now destruct (List.length l =? 1).
  - assert (Hnn : ~ all_negative (diff l))
      by (intros Hc; apply Hn in Hc; discriminate).
    assert (Hl : 2 <= List.length l)
      by (destruct (Nat.le_gt_cases (List.length l) 1); [tauto|lia]).
    replace (List.length l =? 1) with false by (symmetry; apply Nat.eqb_neq; lia).
    destruct (forallb (fun d => fltb zero d) (diff l)) eqn:Ep.
    + right. left. repeat split; try assumption. now apply Hp.
    + right. right. repeat split; try assumption.
      intros Hc. apply Hp in Hc. discriminate.
Qed.

(** X1: [isdecreasing] answers by the order of the frequencies themselves:
    it returns [True] exactly on the strictly decreasing arrays (the arrays
    of length 0 and 1 among them), [False] exactly on the strictly
    increasing arrays of at least two channels, and raises on every other
    array. *)
Theorem isdecreasing_order (l : list float64) :
  (isdecreasing l = Ret true <-> decreasing l)
  /\ (isdecreasing l = Ret false <-> 2 <= List.length l /\ increasing l)
  /\ (raises (isdecreasing l) = true
      <-> ~ decreasing l /\ ~ (2 <= List.length l /\ increasing l)).
Proof.
  rewrite <- all_negative_decreasing, <- all_positive_increasing.
  destruct (isdecreasing_outcome l)
    as [[Hn E] | [[Hn [Hp [Hl E]]] | [Hn [Hp [Hl E]]]]].
  - rewrite E. simpl. repeat split; try tauto; try discriminate.
    intros [Hl Hp]. exfalso.
    apply (@negative_not_positive (diff l)); try assumption.
    intros Ed. pose proof (diff_length l) as D. rewrite Ed in D. simpl in D. lia.
  - rewrite E. simpl. repeat split; try tauto; try discriminate.
  - destruct (isdecreasing l) as [b|e]; [discriminate|].
    simpl. repeat split; try tauto; try discriminate.
Qed.

(** ** The channel order that the reader's caller gets *)

(** Two more windows: one whose three frequencies are not monotonic, and a
    continuum window whose arrays have no channel axis. *)
Module Windows.

Definition irregular_freq : list float64 := [of_Z 1; of_Z 3; of_Z 2].

Definition irregular : Query.t :=
  Query.mk
    ([of_Z 10], [of_Z 5], [of_Z 0])
    (array2 NaN [[of_Z 1]; [of_Z 1]])
    (array3 (Synthetic.cplx 0 0)
       [[[Synthetic.cplx 1 0]; [Synthetic.cplx 2 0]; [Synthetic.cplx 3 0]];
        [[Synthetic.cplx 4 0]; [Synthetic.cplx 5 0]; [Synthetic.cplx 6 0]]])
    (array3 (Synthetic.cplx 0 0)
       [[[Synthetic.cplx 1 0]; [Synthetic.cplx 1 0]; [Synthetic.cplx 1 0]];
        [[Synthetic.cplx 1 0]; [Synthetic.cplx 1 0]; [Synthetic.cplx 1 0]]])
    (array3 false [[[false]; [false]; [false]]; [[false]; [true]; [false]]])
    [0]%Z [1]%Z.

Definition continuum : Query.t :=
  Query.mk
    ([of_Z 10; of_Z 20], [of_Z 5; of_Z 7], [of_Z 0; of_Z 0])
    (array2 NaN [[of_Z 1; of_Z 1]; [of_Z 1; of_Z 1]])
    (array2 (Synthetic.cplx 0 0)
       [[Synthetic.cplx 1 0; Synthetic.cplx 2 0];
        [Synthetic.cplx 3 0; Synthetic.cplx 4 0]])
    (array2 (Synthetic.cplx 0 0)
       [[Synthetic.cplx 1 0; Synthetic.cplx 1 0];
        [Synthetic.cplx 1 0; Synthetic.cplx 1 0]])
    (array2 false [[false; false]; [false; true]])
    [0; 0]%Z [1; 2]%Z.

(** A reader that returns the given frequencies and window. *)
Definition reader (chan_freq : list float64) (query : Query.t) : Globals :=
  mk_globals (Some (fun _ _ => Ret chan_freq)) (Some (fun _ _ => Ret query))
    None None None.

End Windows.

Lemma decreasing_rev_increasing (l : list float64) :
  decreasing (rev l) -> increasing l.
Proof.
  intros H i Hi.
  specialize (H (List.length l - S (S i))). rewrite length_rev in H.
  rewrite !rev_nth in H by lia.
  replace (List.length l - S (S (List.length l - S (S i)))) with i in H by lia.
  replace (List.length l - S (List.length l - S (S i))) with (S i) in H by lia.
  apply H. lia.
Qed.

(** With the reader bound and arrays of at least three axes,
    [get_channel_sorted_data] returns, and the frequencies it returns are the
    input or its reversal. *)
Lemma get_channel_sorted_data_returns (g : Globals) (filename : string)
    (datadescid : Z) (get_channels : string -> Z -> result (list float64))
    (query_datadescid : string -> Z -> result Query.t)
    (chan_freq : list float64) (query : Query.t) :
  g_get_channels g = Some get_channels ->
  get_channels filename datadescid = Ret chan_freq ->
  g_query_datadescid g = Some query_datadescid ->
  query_datadescid filename datadescid = Ret query ->
  3 <= ndim (Query.data query) ->
  3 <= ndim (Query.model_data query) ->
  3 <= ndim (Query.flag query) ->
  exists freq data model_data flag,
    get_channel_sorted_data g filename datadescid
    = Ret (freq, data, model_data, flag)
    /\ (freq = chan_freq \/ freq = rev chan_freq).
Proof.
  intros Hgc Hc Hgq Hq Hd Hm Hf.
  unfold get_channel_sorted_data. rewrite Hgc, Hgq. simpl. rewrite Hc, Hq. simpl.
  destruct ((1 <? List.length chan_freq)
            && fltb (nth 0 chan_freq NaN) (nth 1 chan_freq NaN)).
  - unfold flip_axis1.
    replace (ndim (Query.data query) <? 3) with false
      by (symmetry; apply Nat.ltb_ge; exact Hd).
    replace (ndim (Query.model_data query) <? 3) with false
      by (symmetry; apply Nat.ltb_ge; exact Hm).
    replace (ndim (Query.flag query) <? 3) with false
      by (symmetry; apply Nat.ltb_ge; exact Hf).
    simpl. do 4 eexists. split; [reflexivity|]. now right.
  - do 4 eexists. split; [reflexivity|]. now left.
Qed.

(** X2: [get_channel_sorted_data] looks at the first two frequencies only
    and validates nothing: on every frequency array that [isdecreasing]
    rejects (neither strictly decreasing nor strictly increasing), it still
    returns, and the frequencies it returns are not strictly decreasing. *)
Theorem get_channel_sorted_data_unvalidated (g : Globals) (filename : string)
    (datadescid : Z) (get_channels : string -> Z -> result (list float64))
    (query_datadescid : string -> Z -> result Query.t)
    (chan_freq : list float64) (query : Query.t) :
  g_get_channels g = Some get_channels ->
  get_channels filename datadescid = Ret chan_freq ->
  g_query_datadescid g = Some query_datadescid ->
  query_datadescid filename datadescid = Ret query ->
  3 <= ndim (Query.data query) ->
  3 <= ndim (Query.model_data query) ->
  3 <= ndim (Query.flag query) ->
  raises (isdecreasing chan_freq) = true ->
  exists freq data model_data flag,
    get_channel_sorted_data g filename datadescid
    = Ret (freq, data, model_data, flag)
    /\ ~ decreasing freq.
Proof.
  intros Hgc Hc Hgq Hq Hd Hm Hf Hr.
  destruct (get_channel_sorted_data_returns g filename datadescid
              Hgc Hc Hgq Hq Hd Hm Hf) as [freq [d [m [f [E Hfreq]]]]].
  exists freq, d, m, f. split; [exact E|].
  destruct (isdecreasing_outcome chan_freq)
    as [[_ E'] | [[_ [_ [_ E']]] | [Hn [Hp _]]]];
    try (rewrite E' in Hr; discriminate).
  intros Hdec. destruct Hfreq as [-> | ->].
  - now apply Hn, all_negative_decreasing.
  - now apply Hp, all_positive_increasing, decreasing_rev_increasing.
Qed.

(** The theorem on the frequencies [[1, 3, 2]]. *)
Lemma get_channel_sorted_data_unvalidated_witness :
  exists freq data model_data flag,
    get_channel_sorted_data
      (Windows.reader Windows.irregular_freq Windows.irregular) "irregular.ms" 0
    = Ret (freq, data, model_data, flag)
    /\ ~ decreasing freq.
Proof.
  apply (@get_channel_sorted_data_unvalidated
           (Windows.reader Windows.irregular_freq Windows.irregular)
           "irregular.ms" 0%Z (fun _ _ => Ret Windows.irregular_freq)
           (fun _ _ => Ret Windows.irregular)
           Windows.irregular_freq Windows.irregular);
    try reflexivity; vm_compute; lia.
Defined.

(** X3: arrays without a channel axis (fewer than three axes, as a
    continuum window has) pass through [get_channel_sorted_data] unchanged
    as long as there is at most one frequency or the first two frequencies
    do not increase; with several frequencies of which the first two
    increase, the call raises [IndexError] at [data[:, ::-1, :]]. *)
Theorem get_channel_sorted_data_continuum (g : Globals) (filename : string)
    (datadescid : Z) (get_channels : string -> Z -> result (list float64))
    (query_datadescid : string -> Z -> result Query.t)
    (chan_freq : list float64) (query : Query.t) :
  g_get_channels g = Some get_channels ->
  get_channels filename datadescid = Ret chan_freq ->
  g_query_datadescid g = Some query_datadescid ->
  query_datadescid filename datadescid = Ret query ->
  ndim (Query.data query) < 3 ->
  (List.length chan_freq <= 1
   \/ fltb (nth 0 chan_freq NaN) (nth 1 chan_freq NaN) = false ->
   get_channel_sorted_data g filename datadescid
   = Ret (chan_freq, Query.data query, Query.model_data query, Query.flag query))
  /\ (1 < List.length chan_freq ->
      fltb (nth 0 chan_freq NaN) (nth 1 chan_freq NaN) = true ->
      get_channel_sorted_data g filename datadescid = Raise IndexError).
Proof.
  intros Hgc Hc Hgq Hq Hd.
  unfold get_channel_sorted_data. rewrite Hgc, Hgq. simpl. rewrite Hc, Hq. simpl.
  split.
  - intros [Hl | Hf].
    + replace (1 <? List.length chan_freq) with false
        by (symmetry; apply Nat.ltb_ge; exact Hl).
      reflexivity.
    + rewrite Hf, andb_false_r. reflexivity.
  - intros Hl Hf.
    replace (1 <? List.length chan_freq) with true
      by (symmetry; apply Nat.ltb_lt; exact Hl).
    rewrite Hf. simpl. unfold flip_axis1 at 1.
    replace (ndim (Query.data query) <? 3) with true
      by (symmetry; apply Nat.ltb_lt; exact Hd).
    reflexivity.
Qed.

(** The theorem on the continuum window with two increasing frequencies. *)
Lemma get_channel_sorted_data_continuum_witness :
  (List.length Synthetic.chan_freq <= 1
   \/ fltb (nth 0 Synthetic.chan_freq NaN) (nth 1 Synthetic.chan_freq NaN) = false ->
   get_channel_sorted_data (Windows.reader Synthetic.chan_freq Windows.continuum)
     "continuum.ms" 0
   = Ret (Synthetic.chan_freq, Query.data Windows.continuum,
          Query.model_data Windows.continuum, Query.flag Windows.continuum))
  /\ (1 < List.length Synthetic.chan_freq ->
      fltb (nth 0 Synthetic.chan_freq NaN) (nth 1 Synthetic.chan_freq NaN) = true ->
      get_channel_sorted_data (Windows.reader Synthetic.chan_freq Windows.continuum)
        "continuum.ms" 0 = Raise IndexError).
Proof.
  apply (@get_channel_sorted_data_continuum
           (Windows.reader Synthetic.chan_freq Windows.continuum)
           "continuum.ms" 0%Z (fun _ _ => Ret Synthetic.chan_freq)
           (fun _ _ => Ret Windows.continuum)
           Synthetic.chan_freq Windows.continuum);
    try reflexivity. vm_compute. lia.
Defined.

(** ** The polarization reducers *)

Lemma fold_left_orb (l : list bool) (b : bool) :
  fold_left orb l b = true <-> b = true \/ In true l.
Proof.
  revert b. induction l as [|x l IH]; intros b; simpl.
  - tauto.
  - rewrite IH. destruct b, x; simpl; intuition congruence.
Qed.

Lemma reduce_line_orb (l : list bool) :
  reduce_line orb false l = true <-> In true l.
Proof.
  destruct l as [|x l]; simpl; [split; [discriminate|tauto]|].
  rewrite fold_left_orb. intuition congruence.
Qed.

(** X4: along an axis the array has, [average_flag_polarization] returns
    the array without that axis in which a sample is flagged exactly when
    at least one of its polarizations is flagged (however many
    polarizations there are); a 0-d array reduced along axis 0 or -1 comes
    back as it is; in every other case numpy's [AxisError] is raised. *)
Theorem average_flag_polarization_any (flag : ndarray bool) (axis : Z) :
  (forall k, normalize_axis axis (ndim flag) = Ret k ->
     exists r,
       average_flag_polarization flag axis = Ret r
       /\ shape r = remove_at k (shape flag)
       /\ forall idx,
            item r idx = true
            <-> exists p, p < nth k (shape flag) 0
                          /\ item flag (insert_at k p idx) = true)
  /\ (shape flag = [] -> (axis = 0 \/ axis = -1)%Z ->
      average_flag_polarization flag axis = Ret flag)
  /\ (~ reducible axis (shape flag) ->
      average_flag_polarization flag axis = Raise AxisError).
Proof.
  unfold average_flag_polarization, np_any. split; [|split].
  - intros k Hk. unfold reduce.
    pose proof (normalize_axis_bound _ _ Hk) as Hlt. unfold ndim in Hlt.
    destruct (shape flag) as [|d sh] eqn:Es; [simpl in Hlt; lia|].
    rewrite <- Es. rewrite Hk. simpl. eexists. split; [reflexivity|].
    split; [reflexivity|]. intros idx. simpl.
    rewrite reduce_line_orb, in_map_iff. split.
    + intros [p [Hp Hin]]. apply in_seq in Hin. exists p. split; [lia|exact Hp].
    + intros [p [Hlt' Hp]]. exists p. split; [exact Hp|]. apply in_seq. lia.
  - intros Es Hax. unfold reduce. rewrite Es.
    destruct Hax as [-> | ->]; reflexivity.
  - intros Hr. now apply reduce_not_reducible.
Qed.

(** A 0-d flag along axis 0, and along an axis it cannot have. *)
Example average_flag_polarization_scalar :
  average_flag_polarization (scalar true) 0 = Ret (scalar true)
  /\ average_flag_polarization (scalar true) (-1) = Ret (scalar true)
  /\ average_flag_polarization (scalar true) 1 = Raise AxisError.
Proof. repeat split. Qed.

Section ConjugateFacts.

Local Open Scope Qc_scope.

Lemma sgn_opp (q : Qc) : sgn (- q) = CompOpp (sgn q).
Proof.
  unfold sgn. destruct (q ?= 0) eqn:E; simpl.
  - apply Qceq_alt in E. subst. reflexivity.
  - apply Qclt_alt in E. apply Qcgt_alt.
    apply (Qclt_minus_iff q 0) in E.
    now replace (0 + - q) with (- q) in E by ring.
  - apply Qcgt_alt in E. apply Qclt_alt.
    apply (Qclt_minus_iff (- q) 0).
    now replace (0 + - - q) with q by ring.
Qed.

Lemma fneg_zero : fneg zero = zero.
Proof.
  unfold zero, of_Z, fneg. f_equal; try (apply Qc_is_canon; reflexivity).
Qed.

Lemma fneg_inf (b : bool) : fneg (inf b) = inf (negb b).
Proof. now destruct b. Qed.

Lemma fneg_fadd (x y : float64) : fneg (fadd x y) = fadd (fneg x) (fneg y).
Proof.
  destruct x, y; try reflexivity. unfold fadd, fneg. f_equal. ring.
Qed.

Lemma fneg_fmul (x w : float64) : fneg (fmul x w) = fmul (fneg x) w.
Proof.
  destruct x as [a| | |], w as [b| | |]; try reflexivity;
    unfold fmul, fneg, inf_times; rewrite ?sgn_opp.
  - f_equal. ring.
  - destruct (sgn a); reflexivity.
  - destruct (sgn a); reflexivity.
  - destruct (sgn b); reflexivity.
  - destruct (sgn b); reflexivity.
Qed.

Lemma fneg_fdiv (x w : float64) : fneg (fdiv x w) = fdiv (fneg x) w.
Proof.
  destruct x as [a| | |], w as [b| | |]; try reflexivity;
    try apply fneg_zero; unfold fdiv, fneg; rewrite ?sgn_opp.
  - destruct (sgn b); [destruct (sgn a); reflexivity| |];
      f_equal; unfold Qcdiv; ring.
  - destruct (sgn b); reflexivity.
  - destruct (sgn b); reflexivity.
Qed.

End ConjugateFacts.

Lemma fmul_fneg_zero (x : float64) : fmul (fneg x) zero = fmul x zero.
Proof. now rewrite <- fneg_fmul, fneg_fmul_zero. Qed.

Lemma conj_cmul_real (x : complex) (w : float64) :
  conj (cmul_real x w) = cmul_real (conj x) w.
Proof.
  rewrite !cmul_real_parts. unfold conj. cbn [re im].
  now rewrite fmul_fneg_zero, fneg_fadd, fneg_fmul_zero, fneg_fmul.
Qed.

Lemma conj_cdiv_real (x : complex) (w : float64) :
  conj (cdiv_real x w) = cdiv_real (conj x) w.
Proof.
  destruct w as [q| | |].
  - destruct (feqb (Fin q) zero) eqn:Ez.
    + apply feqb_eq in Ez. rewrite Ez, !cdiv_real_zero. unfold conj.
      cbn [re im]. now rewrite fneg_fdiv.
    + rewrite !cdiv_real_regular by (discriminate || exact Ez).
      unfold conj, fsub. cbn [re im].
      now rewrite fmul_fneg_zero, fneg_fmul, fneg_fadd, !fneg_fmul_zero.
  - rewrite !cdiv_real_regular by (discriminate || reflexivity).
    unfold conj, fsub. cbn [re im].
    now rewrite fmul_fneg_zero, fneg_fmul, fneg_fadd, !fneg_fmul_zero.
  - rewrite !cdiv_real_regular by (discriminate || reflexivity).
    unfold conj, fsub. cbn [re im].
    now rewrite fmul_fneg_zero, fneg_fmul, fneg_fadd, !fneg_fmul_zero.
  - now rewrite !cdiv_real_nan.
Qed.

Lemma conj_cadd (x y : complex) : conj (cadd x y) = cadd (conj x) (conj y).
Proof. unfold conj, cadd. simpl. now rewrite fneg_fadd. Qed.

Lemma conj_fold_cadd (l : list complex) (x : complex) :
  conj (fold_left cadd l x) = fold_left cadd (map conj l) (conj x).
Proof.
  revert x. induction l as [|y l IH]; intros x; simpl; [reflexivity|].
  now rewrite IH, conj_cadd.
Qed.

Lemma conj_reduce_line (l : list complex) :
  conj (reduce_line cadd (of_float zero) l)
  = reduce_line cadd (of_float zero) (map conj l).
Proof.
  destruct l as [|x l]; simpl.
  - unfold conj, of_float. simpl. now rewrite fneg_zero.
  - apply conj_fold_cadd.
Qed.

(** Two outcomes of a computation on complex arrays are conjugate: the
    same exception, or arrays of one shape whose elements are conjugate. *)
Definition conjugates (a b : result (ndarray complex)) : Prop :=
  match a, b with
  | Ret x, Ret y => shape y = shape x /\ forall idx, item y idx = conj (item x idx)
  | Raise e, Raise e' => e = e'
  | _, _ => False
  end.

Lemma weighted_sum_conj (data : ndarray complex) (w norm : ndarray float64)
    (axis : Z) :
  conjugates
    (prod <- binop cmul_real data w ;;
     total <- np_csum prod axis ;;
     binop cdiv_real total norm)
    (prod <- binop cmul_real (map_array conj data) w ;;
     total <- np_csum prod axis ;;
     binop cdiv_real total norm).
Proof.
  unfold binop. simpl shape.
  destruct (broadcast_shapes (shape data) (shape w)) as [sh|]; simpl;
    [|reflexivity].
  unfold np_csum, reduce, ndim. simpl shape.
  destruct sh as [|d sh].
  - destruct ((axis =? 0)%Z || (axis =? -1)%Z); simpl; [|reflexivity].
    split; [reflexivity|]. intros idx.
    now rewrite conj_cdiv_real, conj_cmul_real.
  - destruct (normalize_axis axis (List.length (d :: sh))) as [k|e]; simpl;
      [|reflexivity].
    destruct (broadcast_shapes (remove_at k (d :: sh)) (shape norm)); simpl;
      [|reflexivity].
    split; [reflexivity|]. intros idx.
    rewrite conj_cdiv_real, conj_reduce_line, map_map. f_equal. f_equal.
    apply map_ext. intros p. now rewrite conj_cmul_real.
Qed.

(** X5: complex conjugation commutes with the polarization average: on
    every data array, weight array and axis,
    [average_data_polarization(np.conj(data), weight)] raises what
    [average_data_polarization(data, weight)] raises, or returns the array
    of the same shape whose elements are the conjugates. *)
Theorem average_data_polarization_conj (data : ndarray complex)
    (weight : ndarray float64) (axis : Z) :
  conjugates (average_data_polarization data weight axis)
             (average_data_polarization (map_array conj data) weight axis).
Proof.
  unfold average_data_polarization.
  change (shape (map_array conj data)) with (shape data).
  change (ndim (map_array conj data)) with (ndim data).
  destruct (getitem (shape data) axis) as [npol|e]; simpl; [|reflexivity].
  destruct (assert (npol =? 2) _) as [u|e]; simpl; [|reflexivity].
  destruct (average_weight_polarization weight axis) as [norm|e]; simpl;
    [|reflexivity].
  destruct (ndim data =? ndim weight); [apply weighted_sum_conj|].
  destruct ((ndim data =? 3) && (ndim weight =? 2)); [|reflexivity].
  destruct (newaxis_middle weight) as [w3|e]; simpl; [|reflexivity].
  apply weighted_sum_conj.
Qed.

(** The weighted mean of two finite samples whose weights are both zero. *)
Lemma weighted_mean2_zero_weights (a b c d : Qc) :
  weighted_mean2 (mk_complex (Fin a) (Fin b)) zero
                 (mk_complex (Fin c) (Fin d)) zero
  = mk_complex NaN NaN.
Proof.
  unfold weighted_mean2. rewrite <- fin_zero, !cmul_real_finite.
  unfold cadd. cbn [re im].
  change (fadd (Fin 0%Qc) (Fin 0%Qc)) with (Fin (0 + 0)%Qc).
  change (fadd (Fin (a * 0)%Qc) (Fin (c * 0)%Qc)) with (Fin (a * 0 + c * 0)%Qc).
  change (fadd (Fin (b * 0)%Qc) (Fin (d * 0)%Qc)) with (Fin (b * 0 + d * 0)%Qc).
  replace (a * 0 + c * 0)%Qc with 0%Qc by ring.
  replace (b * 0 + d * 0)%Qc with 0%Qc by ring.
  replace (0 + 0)%Qc with 0%Qc by ring.
  rewrite fin_zero, cdiv_real_zero. reflexivity.
Qed.

(** X6: weights that are zero in both polarizations raise nothing: for
    data and weights of one shape, averaged along an axis of length 2, a
    sample whose two data values are finite and whose two weights are zero
    comes back as [nan + nan j]. *)
Theorem average_data_polarization_zero_weights (data : ndarray complex)
    (weight : ndarray float64) (axis : Z) (k : nat) :
  shape weight = shape data ->
  normalize_axis axis (ndim data) = Ret k ->
  nth k (shape data) 0 = 2 ->
  exists r,
    average_data_polarization data weight axis = Ret r
    /\ forall idx a b c d,
         in_bounds idx (shape r) = true ->
         item data (insert_at k 0 idx) = mk_complex (Fin a) (Fin b) ->
         item data (insert_at k 1 idx) = mk_complex (Fin c) (Fin d) ->
         item weight (insert_at k 0 idx) = zero ->
         item weight (insert_at k 1 idx) = zero ->
         item r idx = mk_complex NaN NaN.
Proof.
  intros Hw Hk H2.
  destruct (average_data_same_shape data weight axis Hw Hk H2) as [r [Hr [_ Hi]]].
  exists r. split; [exact Hr|].
  intros idx a b c d Hb Hd0 Hd1 Hw0 Hw1.
  rewrite (Hi idx Hb), Hd0, Hd1, Hw0, Hw1.
  apply weighted_mean2_zero_weights.
Qed.

(** The theorem on one visibility, [1+2j] and [3+4j], with weights 0 and 0. *)
Lemma average_data_polarization_zero_weights_witness :
  exists r,
    average_data_polarization
      (array2 (of_float NaN) [[Synthetic.cplx 1 2]; [Synthetic.cplx 3 4]])
      (array2 NaN [[zero]; [zero]]) 0 = Ret r
    /\ forall idx a b c d,
         in_bounds idx (shape r) = true ->
         item (array2 (of_float NaN) [[Synthetic.cplx 1 2]; [Synthetic.cplx 3 4]])
              (insert_at 0 0 idx) = mk_complex (Fin a) (Fin b) ->
         item (array2 (of_float NaN) [[Synthetic.cplx 1 2]; [Synthetic.cplx 3 4]])
              (insert_at 0 1 idx) = mk_complex (Fin c) (Fin d) ->
         item (array2 NaN [[zero]; [zero]]) (insert_at 0 0 idx) = zero ->
         item (array2 NaN [[zero]; [zero]]) (insert_at 0 1 idx) = zero ->
         item r idx = mk_complex NaN NaN.
Proof.
  exact (@average_data_polarization_zero_weights
           (array2 (of_float NaN) [[Synthetic.cplx 1 2]; [Synthetic.cplx 3 4]])
           (array2 NaN [[zero]; [zero]]) 0%Z 0 eq_refl eq_refl eq_refl).
Defined.

(** At the one index of that example the result is indeed [nan + nan j]. *)
Example average_data_polarization_zero_weights_value :
  exists r,
    average_data_polarization
      (array2 (of_float NaN) [[Synthetic.cplx 1 2]; [Synthetic.cplx 3 4]])
      (array2 NaN [[zero]; [zero]]) 0 = Ret r
    /\ tolist1 r = [mk_complex NaN NaN].
Proof. eexists. split; reflexivity. Qed.

(** ** reverse_array *)

(** Reversing [[1,2,3],[4,5,6]] twice along its last axis. *)
Lemma reverse_array_involutive_witness :
  exists b c, reverse_array (array2 0 [[1; 2; 3]; [4; 5; 6]]) (-1) = Ret b
              /\ reverse_array b (-1) = Ret c
              /\ same_array c (array2 0 [[1; 2; 3]; [4; 5; 6]]).
Proof.
  exact (@reverse_array_involutive nat (array2 0 [[1; 2; 3]; [4; 5; 6]])
           (-1)%Z 1 eq_refl).
Defined.

Lemma rev_as_map {A : Type} (l : list A) (d : A) :
  map (fun i => nth (List.length l - 1 - i) l d) (seq 0 (List.length l)) = rev l.
Proof.
  apply (nth_ext _ _ d d).
  - now rewrite length_map, length_seq, length_rev.
  - intros i Hi. rewrite length_map, length_seq in Hi.
    rewrite nth_map_seq by exact Hi. rewrite rev_nth by exact Hi.
    f_equal. lia.
Qed.

(** X8: [reverse_array] is the reversal that [get_channel_sorted_data]
    writes as slices: on an array of at least three axes,
    [reverse_array(a, channel_axis=1)] holds the values of [a[:, ::-1, :]],
    and on a 1-d array [reverse_array(v, 0)] is [v[::-1]]. *)
Theorem reverse_array_as_slices :
  (forall (A : Type) (a : ndarray A), 3 <= ndim a ->
     exists b c, reverse_array a 1 = Ret b
                 /\ flip_axis1 a = Ret c
                 /\ same_array b c)
  /\ (forall (A : Type) (d : A) (v : list A),
        exists b, reverse_array (array1 d v) 0 = Ret b
                  /\ shape b = [List.length v]
                  /\ tolist1 b = rev v).
Proof.
  split.
  - intros A a H3. unfold reverse_array, flip, flip_axis1, normalize_axis.
    replace (ndim a <? 3) with false by (symmetry; apply Nat.ltb_ge; exact H3).
    replace ((0 <=? 1)%Z && (1 <? Z.of_nat (ndim a))%Z) with true
      by (symmetry; apply andb_true_intro; split; lia).
    simpl. do 2 eexists. split; [reflexivity|]. split; [reflexivity|].
    split; [reflexivity|]. simpl. intros idx Hb.
    pose proof (in_bounds_length _ _ Hb) as Hl. unfold ndim in H3.
    destruct idx as [|p [|c rest]]; simpl in Hl; try lia. reflexivity.
  - intros A d v. eexists. split; [reflexivity|]. split; [reflexivity|].
    unfold tolist1. simpl. apply rev_as_map.
Qed.

(** ** The cross-correlation filter, continued *)

Lemma broadcast_dim_sym (m n : nat) : broadcast_dim m n = broadcast_dim n m.
Proof.
  unfold broadcast_dim.
  destruct (m =? n) eqn:E1; [apply Nat.eqb_eq in E1; subst; now rewrite Nat.eqb_refl|].
  rewrite (Nat.eqb_sym n m), E1.
  destruct (m =? 1) eqn:E2, (n =? 1) eqn:E3; try reflexivity.
  apply Nat.eqb_eq in E2, E3. apply Nat.eqb_neq in E1. lia.
Qed.

(** A symmetric comparison of two 1-d arrays does not depend on their
    order, whether it broadcasts or raises. *)
Lemma binop_lists_sym {A C : Type} (f : A -> A -> C) (d : A) (la lb : list A) :
  (forall x y, f x y = f y x) ->
  (r <- binop f (array1 d la) (array1 d lb) ;; Ret (tolist1 r))
  = (r <- binop f (array1 d lb) (array1 d la) ;; Ret (tolist1 r)).
Proof.
  intros Hf. unfold binop, broadcast_shapes. simpl.
  rewrite (broadcast_dim_sym (List.length lb) (List.length la)).
  destruct (broadcast_dim (List.length la) (List.length lb)) as [n|]; simpl;
    [|reflexivity].
  f_equal. unfold tolist1. simpl. apply map_ext. intros i. apply Hf.
Qed.

(** X9: the cross-correlation filter does not depend on the order of the
    two antenna arrays: [contains_autocorrelations] and
    [get_crosscorrelation_indexes] give the same outcome (result or
    exception) on [(ant1, ant2)] and on [(ant2, ant1)]. *)
Theorem crosscorrelation_symmetric (ant1 ant2 : list Z) :
  contains_autocorrelations ant1 ant2 = contains_autocorrelations ant2 ant1
  /\ get_crosscorrelation_indexes ant1 ant2
     = get_crosscorrelation_indexes ant2 ant1.
Proof.
  unfold contains_autocorrelations, get_crosscorrelation_indexes. split.
  - pose proof (@binop_lists_sym Z bool Z.eqb 0%Z ant1 ant2 Z.eqb_sym) as H.
    destruct (binop Z.eqb (array1 0%Z ant1) (array1 0%Z ant2)) as [r|e],
             (binop Z.eqb (array1 0%Z ant2) (array1 0%Z ant1)) as [r'|e'];
      simpl in *; congruence.
  - pose proof (@binop_lists_sym Z bool (fun a b => negb (Z.eqb a b)) 0%Z
                  ant1 ant2 (fun x y => f_equal negb (Z.eqb_sym x y))) as H.
    destruct (binop (fun a b => negb (Z.eqb a b)) (array1 0%Z ant1) (array1 0%Z ant2))
      as [r|e],
      (binop (fun a b => negb (Z.eqb a b)) (array1 0%Z ant2) (array1 0%Z ant1))
      as [r'|e'];
      simpl in *; congruence.
Qed.

Lemma crosscorrelation_indexes_spec (ant1 ant2 : list Z) :
  List.length ant1 = List.length ant2 ->
  exists xc,
    get_crosscorrelation_indexes ant1 ant2 = Ret xc
    /\ strictly_increasing xc
    /\ forall i, In i xc
                 <-> i < List.length ant1 /\ nth i ant1 0%Z <> nth i ant2 0%Z.
Proof.
  intros E.
  destruct (binop_lists (fun a b => negb (Z.eqb a b)) 0%Z 0%Z ant1 ant2 E)
    as [ne [Hne Lne]].
  unfold get_crosscorrelation_indexes. rewrite Hne. simpl bind. rewrite Lne.
  eexists. split; [reflexivity|]. split; [apply where_from_sorted|].
  intros i. unfold where_true. rewrite where_from_In, Nat.sub_0_r.
  rewrite nth_map_seq_false, negb_true_iff, Z.eqb_neq. intuition lia.
Qed.

(** Indexes below the length of the axis are taken as they are. *)
Lemma resolve_indexes_nat (n : nat) (l : list nat) :
  Forall (fun i => i < n) l -> resolve_indexes n (map Z.of_nat l) = Ret l.
Proof.
  induction 1 as [|i l Hi Hl IH]; simpl; [reflexivity|].
  replace (Z.of_nat i <? 0)%Z with false by lia.
  replace ((0 <=? Z.of_nat i)%Z && (Z.of_nat i <? Z.of_nat n)%Z) with true
    by (symmetry; apply andb_true_intro; split; lia).
  rewrite IH. simpl. now rewrite Nat2Z.id.
Qed.

(** X10: selecting the visibility axis of a per-channel array with the
    indexes of [get_crosscorrelation_indexes] ([a[:, xc]]) never fails; the
    columns kept are, in their original order, exactly the columns of the
    baselines whose two antennas differ, so no autocorrelation survives and
    no cross-correlation is lost. *)
Theorem crosscorrelation_selection {A : Type} (a : ndarray A)
    (ant1 ant2 : list Z) (n0 nvis : nat) (rest : list nat) :
  shape a = n0 :: nvis :: rest ->
  List.length ant1 = nvis ->
  List.length ant2 = nvis ->
  exists xc r,
    get_crosscorrelation_indexes ant1 ant2 = Ret xc
    /\ take_axis1 a (Indexes (map Z.of_nat xc)) = Ret r
    /\ shape r = n0 :: List.length xc :: rest
    /\ strictly_increasing xc
    /\ (forall j, j < List.length xc ->
          nth j xc 0 < nvis
          /\ nth (nth j xc 0) ant1 0%Z <> nth (nth j xc 0) ant2 0%Z
          /\ forall i more,
               item r (i :: j :: more) = item a (i :: nth j xc 0 :: more))
    /\ (forall v, v < nvis -> nth v ant1 0%Z <> nth v ant2 0%Z ->
          exists j, j < List.length xc /\ nth j xc 0 = v).
Proof.
  intros Hs H1 H2.
  destruct (@crosscorrelation_indexes_spec ant1 ant2) as [xc [Hxc [Hsorted Hin]]];
    [congruence|].
  rewrite H1 in Hin.
  assert (Hall : Forall (fun i => i < nvis) xc)
    by (apply Forall_forall; intros i Hi; now apply Hin in Hi).
  exists xc. eexists. split; [exact Hxc|].
  unfold take_axis1, resolve. rewrite Hs, (resolve_indexes_nat Hall). simpl.
  split; [reflexivity|]. split; [reflexivity|]. split; [exact Hsorted|].
  split.
  - intros j Hj. assert (Hj' : In (nth j xc 0) xc) by (now apply nth_In).
    apply Hin in Hj'. destruct Hj' as [Hlt Hne].
    split; [exact Hlt|]. split; [exact Hne|]. reflexivity.
  - intros v Hv Hne. assert (Hv' : In v xc) by (apply Hin; split; assumption).
    destruct (In_nth _ _ 0 Hv') as [j [Hj Ej]]. now exists j.
Qed.

(** The theorem on the weights of the synthetic window and its antennas. *)
Lemma crosscorrelation_selection_witness :
  exists xc r,
    get_crosscorrelation_indexes [0; 1; 0]%Z [1; 1; 2]%Z = Ret xc
    /\ take_axis1 (Query.weight Synthetic.query) (Indexes (map Z.of_nat xc)) = Ret r
    /\ shape r = 2 :: List.length xc :: []
    /\ strictly_increasing xc
    /\ (forall j, j < List.length xc ->
          nth j xc 0 < 3
          /\ nth (nth j xc 0) [0; 1; 0]%Z 0%Z <> nth (nth j xc 0) [1; 1; 2]%Z 0%Z
          /\ forall i more,
               item r (i :: j :: more)
               = item (Query.weight Synthetic.query) (i :: nth j xc 0 :: more))
    /\ (forall v, v < 3 -> nth v [0; 1; 0]%Z 0%Z <> nth v [1; 1; 2]%Z 0%Z ->
          exists j, j < List.length xc /\ nth j xc 0 = v).
Proof.
  exact (@crosscorrelation_selection float64 (Query.weight Synthetic.query)
           [0; 1; 0]%Z [1; 1; 2]%Z 2 3 [] eq_refl eq_refl eq_refl).
Defined.

(** ** broadcast_weights, continued *)

Lemma broadcast_weights_vector (weight : ndarray float64)
    (data_shape : list nat) (chan_axis : Z) (nvis nchan : nat) :
  shape weight = [nvis] ->
  getitem data_shape chan_axis = Ret nchan ->
  exists r,
    broadcast_weights weight (PyTuple data_shape) chan_axis = Ret r
    /\ shape r = [nchan; nvis]
    /\ forall c v, c < nchan -> v < nvis -> item r [c; v] = item weight [v].
Proof.
  intros Hs Hn. unfold broadcast_weights, subscript. rewrite Hn.
  unfold newaxis_front. rewrite Hs. cbv beta iota zeta delta [bind].
  unfold binop. simpl shape. rewrite broadcast_shapes_front_column.
  eexists. split; [reflexivity|]. split; [reflexivity|].
  intros c v Hc Hv. simpl. now rewrite (clamp_dim Hv), fmul_one_r.
Qed.

Lemma in_bounds_2 (idx : list nat) (n m : nat) :
  in_bounds idx [n; m] = true -> exists c v, idx = [c; v] /\ c < n /\ v < m.
Proof.
  destruct idx as [|c [|v [|x idx]]]; simpl; try discriminate.
  - rewrite andb_false_r. discriminate.
  - rewrite andb_true_r. intros H. apply andb_prop in H. destruct H as [Hc Hv].
    apply Nat.ltb_lt in Hc, Hv. now exists c, v.
  - rewrite !andb_false_r. discriminate.
Qed.

(** X11: on a weight array that still has its polarization axis (shape
    [(npol, nvis)] with [npol > 1]) [broadcast_weights] never replicates
    across channels: it raises [ValueError] unless [nchan] is [npol] or 1,
    and then it returns the weights themselves under a new leading axis of
    length 1 (shape [(1, npol, nvis)]). *)
Theorem broadcast_weights_polarized (weight : ndarray float64)
    (data_shape : list nat) (chan_axis : Z) (npol nvis nchan : nat) :
  shape weight = [npol; nvis] ->
  getitem data_shape chan_axis = Ret nchan ->
  1 < npol ->
  (nchan <> npol -> nchan <> 1 ->
   broadcast_weights weight (PyTuple data_shape) chan_axis = Raise ValueError)
  /\ (nchan = npol \/ nchan = 1 ->
      exists r,
        broadcast_weights weight (PyTuple data_shape) chan_axis = Ret r
        /\ shape r = [1; npol; nvis]
        /\ forall p v, p < npol -> v < nvis ->
             item r [0; p; v] = item weight [p; v]).
Proof.
  intros Hs Hn Hp. unfold broadcast_weights, subscript. rewrite Hn.
  unfold newaxis_front. rewrite Hs. cbv beta iota zeta delta [bind].
  unfold binop, broadcast_shapes. simpl shape. simpl rev.
  simpl broadcast_rev. rewrite broadcast_dim_1_r.
  assert (Hp1 : (npol =? 1) = false) by (apply Nat.eqb_neq; lia).
  split.
  - intros H1 H2. unfold broadcast_dim.
    replace (npol =? nchan) with false by (symmetry; apply Nat.eqb_neq; lia).
    rewrite Hp1.
    replace (nchan =? 1) with false by (symmetry; apply Nat.eqb_neq; lia).
    reflexivity.
  - intros Hc.
    assert (Hd : broadcast_dim npol nchan = Some npol).
    { destruct Hc as [-> | ->];
        [apply broadcast_dim_refl|apply broadcast_dim_1_r]. }
    rewrite Hd. simpl. eexists. split; [reflexivity|]. split; [reflexivity|].
    intros p v Hlt Hv. simpl. rewrite Hp1, (clamp_dim Hv), fmul_one_r.
    reflexivity.
Qed.

(** The theorem on the weights of the synthetic window, for data of shape
    [(2, 2, 3)] and channel axis 1. *)
Lemma broadcast_weights_polarized_witness :
  (2 <> 2 -> 2 <> 1 ->
   broadcast_weights (Query.weight Synthetic.query) (PyTuple [2; 2; 3]) 1
   = Raise ValueError)
  /\ (2 = 2 \/ 2 = 1 ->
      exists r,
        broadcast_weights (Query.weight Synthetic.query) (PyTuple [2; 2; 3]) 1
        = Ret r
        /\ shape r = [1; 2; 3]
        /\ forall p v, p < 2 -> v < 3 ->
             item r [0; p; v] = item (Query.weight Synthetic.query) [p; v]).
Proof.
  apply (@broadcast_weights_polarized (Query.weight Synthetic.query)
           [2; 2; 3] 1%Z 2 3 2 eq_refl eq_refl). lia.
Defined.

(** The square of the factor is a number or overflows. *)
Lemma py_square_outcome (s : float64) :
  py_square s = Raise OverflowError \/ exists s2, py_square s = Ret s2.
Proof.
  destruct s as [q| | |]; simpl; try (right; eexists; reflexivity).
  destruct (fleb overflow_bound (Fin (q * q))); [left; reflexivity|].
  destruct (fleb (Fin (q * q)) underflow_bound); right; eexists; reflexivity.
Qed.

(** X12: broadcasting and rescaling commute on a vector of weights.  The
    weights broadcast; when [sigma_rescale**2] overflows, rescaling raises
    [OverflowError] on the broadcast weights as on the vector; otherwise
    [rescale_weights(broadcast_weights(w, data_shape, chan_axis), s)] and
    [broadcast_weights(rescale_weights(w, s), data_shape, chan_axis)] both
    return, and are the same array (a square of zero included). *)
Theorem broadcast_rescale_commute (weight : ndarray float64)
    (data_shape : list nat) (chan_axis : Z) (sigma_rescale : float64)
    (nvis nchan : nat) :
  shape weight = [nvis] ->
  getitem data_shape chan_axis = Ret nchan ->
  exists b,
    broadcast_weights weight (PyTuple data_shape) chan_axis = Ret b
    /\ (py_square sigma_rescale = Raise OverflowError
        \/ exists s2, py_square sigma_rescale = Ret s2)
    /\ (py_square sigma_rescale = Raise OverflowError ->
        rescale_weights (NpArray b) sigma_rescale = Raise OverflowError
        /\ rescale_weights (NpArray weight) sigma_rescale = Raise OverflowError)
    /\ (forall s2, py_square sigma_rescale = Ret s2 ->
        exists br r rb,
          rescale_weights (NpArray b) sigma_rescale = Ret (NpArray br)
          /\ rescale_weights (NpArray weight) sigma_rescale = Ret (NpArray r)
          /\ broadcast_weights r (PyTuple data_shape) chan_axis = Ret rb
          /\ same_array br rb).
Proof.
  intros Hs Hn.
  destruct (broadcast_weights_vector weight data_shape chan_axis Hs Hn)
    as [b [Hb [Sb Ib]]].
  exists b. split; [exact Hb|]. split; [apply py_square_outcome|].
  unfold rescale_weights. split.
  - intros Ho. rewrite Ho. split; reflexivity.
  - intros s2 H2. rewrite H2. simpl.
    set (r := map_array (fun w => fdiv w s2) weight).
    destruct (@broadcast_weights_vector r data_shape chan_axis nvis nchan Hs Hn)
      as [rb [Hrb [Srb Irb]]].
    exists (map_array (fun w => fdiv w s2) b), r, rb.
    split; [reflexivity|]. split; [reflexivity|].
    split; [exact Hrb|]. split; [simpl; congruence|].
    simpl shape. rewrite Sb. intros idx Hin.
    apply in_bounds_2 in Hin. destruct Hin as [c [v [-> [Hc Hv]]]].
    simpl. rewrite (Ib c v Hc Hv), (Irb c v Hc Hv). reflexivity.
Qed.

(** The theorem on three weights, four channels and the factor zero. *)
Lemma broadcast_rescale_commute_witness :
  exists b,
    broadcast_weights (array1 NaN [of_Z 5; of_Z 0; of_Z 7]) (PyTuple [4; 3]) 0
    = Ret b
    /\ (py_square zero = Raise OverflowError
        \/ exists s2, py_square zero = Ret s2)
    /\ (py_square zero = Raise OverflowError ->
        rescale_weights (NpArray b) zero = Raise OverflowError
        /\ rescale_weights (NpArray (array1 NaN [of_Z 5; of_Z 0; of_Z 7])) zero
           = Raise OverflowError)
    /\ (forall s2, py_square zero = Ret s2 ->
        exists br r rb,
          rescale_weights (NpArray b) zero = Ret (NpArray br)
          /\ rescale_weights (NpArray (array1 NaN [of_Z 5; of_Z 0; of_Z 7])) zero
             = Ret (NpArray r)
          /\ broadcast_weights r (PyTuple [4; 3]) 0 = Ret rb
          /\ same_array br rb).
Proof.
  exact (@broadcast_rescale_commute (array1 NaN [of_Z 5; of_Z 0; of_Z 7])
           [4; 3] 0%Z zero 3 4 eq_refl eq_refl).
Defined.

(** Both orders on the factor [2**600], whose square overflows. *)
Example broadcast_rescale_overflow :
  let s := Fin (Q2Qc (inject_Z (2 ^ 600))) in
  let w := array1 NaN [of_Z 5; of_Z 0; of_Z 7] in
  exists b,
    broadcast_weights w (PyTuple [4; 3]) 0 = Ret b
    /\ rescale_weights (NpArray b) s = Raise OverflowError
    /\ rescale_weights (NpArray w) s = Raise OverflowError.
Proof.
  eexists. split; [reflexivity|]. split; vm_compute; reflexivity.
Qed.

(** ** convert_baselines, continued *)

(** X13: the two conversion functions agree on whole arrays:
    [broadcast_and_convert_baselines(u, v, chan_freq)] returns the arrays
    that [convert_baselines] returns for [u] and for [v] with the column of
    frequencies [chan_freq[:, np.newaxis]]. *)
Theorem broadcast_and_convert_as_column (u v chan_freq : list float64) :
  exists uu vv cu cv,
    broadcast_and_convert_baselines u v chan_freq = Ret (uu, vv)
    /\ convert_baselines (array1 NaN u) (column NaN chan_freq) = Ret cu
    /\ convert_baselines (array1 NaN v) (column NaN chan_freq) = Ret cv
    /\ same_array uu cu
    /\ same_array vv cv.
Proof.
  unfold broadcast_and_convert_baselines, convert_baselines.
  rewrite (@binop_row_column _ _ _ fmul (array1 NaN u) _
             (List.length u) (List.length chan_freq)) by reflexivity.
  rewrite (@binop_row_column _ _ _ fmul (array1 NaN v) _
             (List.length v) (List.length chan_freq)) by reflexivity.
  cbv beta iota zeta delta [bind].
  rewrite (@binop_matrix_column _ _ _ fdiv _ _
             (List.length u) (List.length chan_freq)) by reflexivity.
  rewrite (@binop_matrix_column _ _ _ fdiv _ _
             (List.length v) (List.length chan_freq)) by reflexivity.
  rewrite (@binop_row_column _ _ _ fdiv (map_array _ (array1 NaN u)) _
             (List.length u) (List.length chan_freq)) by reflexivity.
  rewrite (@binop_row_column _ _ _ fdiv (map_array _ (array1 NaN v)) _
             (List.length v) (List.length chan_freq)) by reflexivity.
  do 4 eexists. split; [reflexivity|]. split; [reflexivity|].
  split; [reflexivity|].
  split; (split; [reflexivity|]); simpl shape; intros idx Hb;
    apply in_bounds_2 in Hb; destruct Hb as [i [j [-> [Hi Hj]]]]; simpl;
    rewrite !(clamp_dim Hj), !(clamp_dim Hi), fmul_one_r; reflexivity.
Qed.

(** X14: two 1-d arguments are paired element by element, never crossed:
    baselines and frequencies of one length give the array of that length
    whose element [j] converts baseline [j] at frequency [j], and two
    lengths that differ, neither of them 1, raise [ValueError]. *)
Theorem convert_baselines_vectors (baselines freq : list float64) :
  (List.length baselines = List.length freq ->
   exists r,
     convert_baselines (array1 NaN baselines) (array1 NaN freq) = Ret r
     /\ shape r = [List.length baselines]
     /\ forall j, j < List.length baselines ->
          item r [j]
          = fdiv (fmul milli (nth j baselines NaN))
                 (fdiv c_value (nth j freq NaN)))
  /\ (List.length baselines <> List.length freq ->
      List.length baselines <> 1 -> List.length freq <> 1 ->
      convert_baselines (array1 NaN baselines) (array1 NaN freq)
      = Raise ValueError).
Proof.
  unfold convert_baselines. split.
  - intros E.
    match goal with
    | |- exists r, binop fdiv ?a ?b = _ /\ _ =>
        destruct (binop_same_shape fdiv a b) as [r [Hr [Sr Ir]]];
          [simpl; now rewrite E|]
    end.
    exists r. split; [exact Hr|]. split; [exact Sr|].
    intros j Hj. rewrite Ir; [reflexivity|].
    simpl. rewrite andb_true_r. now apply Nat.ltb_lt.
  - intros H1 H2 H3. unfold binop, broadcast_shapes. simpl.
    unfold broadcast_dim.
    replace (List.length baselines =? List.length freq) with false
      by (symmetry; apply Nat.eqb_neq; exact H1).
    replace (List.length baselines =? 1) with false
      by (symmetry; apply Nat.eqb_neq; exact H2).
    replace (List.length freq =? 1) with false
      by (symmetry; apply Nat.eqb_neq; exact H3).
    reflexivity.
Qed.

(** Three baselines with two frequencies raise. *)
Example convert_baselines_vectors_mismatch :
  convert_baselines (array1 NaN [of_Z 10; of_Z 0; of_Z 20])
                    (array1 NaN Synthetic.chan_freq)
  = Raise ValueError.
Proof. reflexivity. Qed.

Section ZeroBaseline.

Local Open Scope Qc_scope.

Lemma Qc_inv_nonzero (f : Qc) : f <> 0 -> / f <> 0.
Proof.
  intros Hf E. pose proof (Qcmult_inv_r f Hf) as H. rewrite E in H.
  replace (f * 0) with 0 in H by ring. discriminate.
Qed.

Lemma fdiv_zero_wavelength (f : Qc) :
  fdiv (fmul milli zero) (fdiv c_value (Fin f)) = zero.
Proof.
  assert (Hm : fmul milli zero = zero).
  { unfold fmul, milli, zero, of_Q, of_Z. f_equal.
    change (Q2Qc (inject_Z 0)) with 0. ring. }
  rewrite Hm.
  destruct (Qc_eq_dec f 0) as [-> | Hf]; [reflexivity|].
  assert (Hc : Q2Qc (inject_Z 299792458) / f <> 0).
  { unfold Qcdiv. intros E. apply Qcmult_integral in E.
    destruct E as [E | E]; [discriminate|]. now apply (Qc_inv_nonzero Hf). }
  unfold c_value, of_Z. rewrite (fdiv_fin _ Hf).
  unfold zero, of_Z. rewrite (fdiv_fin _ Hc). f_equal.
  change (Q2Qc (inject_Z 0)) with 0. unfold Qcdiv. ring.
Qed.

End ZeroBaseline.

Lemma broadcast_rev_nil_r (l : list nat) : broadcast_rev l [] = Some l.
Proof. now destruct l. Qed.

Lemma broadcast_shapes_scalar (sh : list nat) : broadcast_shapes sh [] = Some sh.
Proof.
  unfold broadcast_shapes. change (rev []) with (@nil nat).
  rewrite broadcast_rev_nil_r. simpl. now rewrite rev_involutive.
Qed.

(** X15: a baseline of length zero stays zero: at every finite frequency
    (the frequency 0, whose wavelength is infinite, included)
    [convert_baselines] keeps the shape of the baseline array and returns 0
    wherever the baseline is 0, as for the autocorrelation baselines. *)
Theorem convert_baselines_zero (baselines : ndarray float64) (f : Qc) :
  exists r,
    convert_baselines baselines (scalar (Fin f)) = Ret r
    /\ shape r = shape baselines
    /\ forall idx, in_bounds idx (shape baselines) = true ->
         item baselines idx = zero -> item r idx = zero.
Proof.
  unfold convert_baselines, binop. simpl shape.
  rewrite broadcast_shapes_scalar.
  eexists. split; [reflexivity|]. split; [reflexivity|].
  intros idx Hb Hz. simpl.
  rewrite (bcast_index_in_bounds _ _ Hb), Hz. apply fdiv_zero_wavelength.
Qed.

(** ** The pipeline, continued *)

(** X16: when the reader and [broadcast_baselines] succeed, the exception
    of [get_processed_visibilities] is the [TypeError] of
    [broadcast_weights(weight, nchan)]: the pipeline gets as far as its
    weights and no further. *)
Theorem get_processed_visibilities_type_error (g : Globals) (filename : string)
    (datadescid : Z) (sigma_rescale : float64) (model_data : bool)
    (chan_freq : list float64) (data model : ndarray complex)
    (flag : ndarray bool)
    (query_datadescid : string -> Z -> result Query.t) (query : Query.t)
    (broadcast_baselines :
       list float64 -> list float64 -> list float64
       -> result (ndarray float64 * ndarray float64))
    (baselines : ndarray float64 * ndarray float64) :
  get_channel_sorted_data g filename datadescid
  = Ret (chan_freq, data, model, flag) ->
  g_query_datadescid g = Some query_datadescid ->
  query_datadescid filename datadescid = Ret query ->
  g_broadcast_baselines g = Some broadcast_baselines ->
  broadcast_baselines (fst (fst (Query.uvw query))) (snd (fst (Query.uvw query)))
    chan_freq = Ret baselines ->
  get_processed_visibilities g filename datadescid sigma_rescale model_data
  = Raise TypeError.
Proof.
  intros Hs Hg Hq Hb Hbb. unfold get_processed_visibilities.
  rewrite Hs, Hg. simpl. rewrite Hq. simpl.
  destruct (Query.uvw query) as [[uu vv] ww]. simpl in Hbb.
  rewrite Hb. simpl. rewrite Hbb. simpl.
  destruct baselines as [uu' vv']. reflexivity.
Qed.

(** The theorem on the synthetic window, with the five names bound. *)
Lemma get_processed_visibilities_type_error_witness :
  get_processed_visibilities Synthetic.globals "synthetic.ms" 0 (of_Z 2) true
  = Raise TypeError.
Proof.
  eapply (@get_processed_visibilities_type_error Synthetic.globals
            "synthetic.ms" 0%Z (of_Z 2) true);
    reflexivity.
Defined.
